(** * shrina-proxy: the middleware layer ([src/middleware.ts])

    A shallow embedding of the request logger, the header filter, the
    Hono-to-Express adapter and the error handler, and the properties of
    them that the specification states.

    Conventions of the embedding.
    - A JavaScript object used as a dictionary ([req.headers], the record
      built by [getFilteredHeaders], the header table of the response) is
      a [gmap string _].
    - Header names are HTTP tokens, hence 7-bit; a string is a
      [String.string] and [toLowerCase] acts on the letters [A]..[Z].
    - Numbers that the code handles (status codes, clock readings in
      milliseconds) are integers, in [Z].
    - [Date.now()] and [Math.random()] are inputs of the operations that
      read them, and so is the request object: a call of [res.end] is
      given the request as it is at that moment.
    - What Express does inside [res.json] is kept apart from the code of
      [errorHandler], and followed only where its course is plain.
    - The pino logger is a sink of emission calls: an emission is recorded
      with its level, payload and message in the order the code makes it. *)

From Stdlib Require Import ZArith NArith Ascii String List Lia.
From stdpp Require Import base option gmap strings list fin_maps pretty.

Local Open Scope string_scope.
Local Open Scope Z_scope.

(** ** JavaScript strings *)

Module JsString.

(** [c] is one of [A]..[Z]. *)
Definition is_upper (c : ascii) : bool :=
  let n := N_of_ascii c in ((65 <=? n) && (n <=? 90))%N.

(** [c] is one of [a]..[z]. *)
Definition is_lower (c : ascii) : bool :=
  let n := N_of_ascii c in ((97 <=? n) && (n <=? 122))%N.

Definition ascii_toLowerCase (c : ascii) : ascii :=
  if is_upper c then ascii_of_N (N_of_ascii c + 32) else c.

(** [toLowerCase] on a character, read on its code. *)
Definition lower_code (x : N) : N :=
  if ((65 <=? x) && (x <=? 90))%N then (x + 32)%N else x.

(** [s.toLowerCase()] *)
Fixpoint toLowerCase (s : string) : string :=
  match s with
  | EmptyString => EmptyString
  | String c r => String (ascii_toLowerCase c) (toLowerCase r)
  end.

(** [s.substring(n)]: [s] without its first [n] characters, the empty
    string when [s] is that short. *)
Fixpoint substring (n : nat) (s : string) : string :=
  match n, s with
  | O, _ => s
  | S _, EmptyString => EmptyString
  | S m, String _ r => substring m r
  end.

(** [l.join(sep)] *)
Fixpoint join (sep : string) (l : list string) : string :=
  match l with
  | [] => ""
  | [x] => x
  | x :: r => x ++ sep ++ join sep r
  end.

(** [l.includes(x)] *)
Definition includes (l : list string) (x : string) : bool :=
  existsb (String.eqb x) l.

(** The truth value of a string: only the empty string is falsy. *)
Definition truthy (s : string) : bool :=
  match s with EmptyString => false | _ => true end.

(** Equality of two characters up to the case of a letter, stated
    without [toLowerCase]: the characters are the same, or one is a
    capital and the other the small letter 32 code points above it. *)
Definition ascii_eq_nocase (a b : ascii) : bool :=
  let x := N_of_ascii a in
  let y := N_of_ascii b in
  ((x =? y) || (is_upper a && (y =? x + 32)) || (is_upper b && (x =? y + 32)))%N.

(** Case-insensitive equality of two strings. *)
Fixpoint eq_nocase (s t : string) : bool :=
  match s, t with
  | EmptyString, EmptyString => true
  | String a r, String b q => ascii_eq_nocase a b && eq_nocase r q
  | _, _ => false
  end.

(** A digit of base 36: [0]..[9] or [a]..[z]. *)
Definition is_digit36 (c : ascii) : bool :=
  let n := N_of_ascii c in
  (((48 <=? n) && (n <=? 57)) || is_lower c)%N.

Fixpoint all_digit36 (s : string) : bool :=
  match s with
  | EmptyString => true
  | String c r => is_digit36 c && all_digit36 r
  end.

(** The rendering in base 36 of a number strictly between 0 and 1:
    ["0."] and then digits, at least one. *)
Definition is_fraction36 (s : string) : bool :=
  match s with
  | String "0" (String "." ds) => truthy ds && all_digit36 ds
  | _ => false
  end.

End JsString.

(** ** Requests *)

(** A value of [req.headers]: [string | string[] | undefined]. *)
Inductive HeaderValue :=
| HStr (s : string)
| HArr (l : list string)
| HUndef.

#[global] Instance HeaderValue_eq_dec : EqDecision HeaderValue.
Proof. solve_decision. Defined.

(** The part of an Express [Request] the middleware reads. [ip] and
    [remoteAddress] are [None] when undefined; [query] is the raw query
    string, which the middleware only copies. *)
Record Request := mkRequest {
  method : string;
  url : string;
  path : string;
  query : string;
  headers : gmap string HeaderValue;
  ip : option string;
  remoteAddress : option string
}.

Definition set_headers (h : gmap string HeaderValue) (req : Request) : Request :=
  {| method := method req; url := url req; path := path req;
     query := query req; headers := h; ip := ip req;
     remoteAddress := remoteAddress req |}.

(** ** Header filter *)

Definition sensitiveHeaders : list string :=
  ["authorization"; "cookie"; "set-cookie"].

Definition REDACTED : string := "[REDACTED]".

(** [key] equals one of the sensitive names up to the case of its
    letters. *)
Definition is_sensitive (key : string) : bool :=
  existsb (JsString.eq_nocase key) sensitiveHeaders.

(** The value stored for one entry of [req.headers]: the body of the
    loop of [getFilteredHeaders]. *)
Definition filterHeader (key : string) (value : HeaderValue) : string :=
  if JsString.includes sensitiveHeaders (JsString.toLowerCase key) then REDACTED
  else match value with
       | HArr l => JsString.join ", " l
       | HStr s => if JsString.truthy s then s else ""
       | HUndef => ""
       end.

(** [getFilteredHeaders(req)]: a fresh record, filled entry by entry from
    [Object.entries(req.headers)]. *)
Definition getFilteredHeaders (req : Request) : gmap string string :=
  map_fold (fun key value acc => <[key := filterHeader key value]> acc)
           ∅ (headers req).

(** ** The logger *)

Inductive Level := Debug | Info | Warn | Error.

(** A failure as it travels through [next(err)]: the fields the error
    handler reads. [status], [statusCode] and [message] are [None] when
    undefined; [isError] is [err instanceof Error] and [repr] is
    [String(err)]. *)
Record Failure := mkFailure {
  status : option Z;
  statusCode : option Z;
  message : option string;
  name : option string;
  stack : option string;
  isError : bool;
  repr : string
}.

(** The structured payload of an emission, one constructor per object
    literal handed to the logger. *)
Inductive Payload :=
| RequestLog (requestId : HeaderValue) (method url path query : string)
             (headers : gmap string string) (remoteAddress : string)
| ResponseLog (requestId : HeaderValue) (method url path : string)
              (status responseTime : Z)
| ErrorLog (error : Failure + string) (stack : option string)
           (path method url : string).

Record LogCall := mkLogCall {
  level : Level;
  payload : Payload;
  msg : string
}.

(** The [type] field of a payload. *)
Definition payload_type (p : Payload) : option string :=
  match p with
  | RequestLog _ _ _ _ _ _ _ => Some "request"
  | ResponseLog _ _ _ _ _ _ => Some "response"
  | ErrorLog _ _ _ _ _ => None
  end.

(** The terminal event of a request is the [response] event. *)
Definition is_terminal (e : LogCall) : bool :=
  match payload e with
  | ResponseLog _ _ _ _ _ _ => true
  | _ => false
  end.

Definition count_terminal (l : list LogCall) : nat :=
  length (filter (fun e => is_terminal e = true) l).

(** ** Responses *)

(** The envelope of an error response ([interface ErrorResponse]). *)
Record ErrorDetails := mkErrorDetails {
  details_name : option string;
  details_stack : option string
}.

Record ErrorBody := mkErrorBody {
  code : Z;
  error_message : string;
  details : option ErrorDetails
}.

Record ErrorResponse := mkErrorResponse {
  error : ErrorBody;
  success : bool;
  timestamp : string;
  error_path : string
}.

(** What a call of [res.end] or [res.json] hands over as the body. *)
Inductive Chunk :=
| ChunkText (s : string)
| ChunkJson (e : ErrorResponse).

(** The function stored in [res.end]: the one of the HTTP library, or
    the closure that [requestLogger] puts in its place, with the values
    it captures. The closure also holds the request object itself; what
    it reads from it, it reads when [res.end] runs. *)
Inductive EndImpl :=
| NativeEnd
| LoggingEnd (startTime : Z) (requestId : HeaderValue) (originalEnd : EndImpl).

(** The in-flight response. [sent] holds the body chunks written, in
    order; [finished] is set by the first native [end]. *)
Record Response := mkResponse {
  res_statusCode : Z;
  res_headers : gmap string HeaderValue;
  sent : list Chunk;
  finished : bool;
  res_end : EndImpl
}.

(** A call of [next]: [next()] or [next(error)]. *)
Inductive NextCall :=
| NextOk
| NextError (error : Failure).

(** What a middleware acts on: the log sink, the response, and the calls
    of [next] made so far. *)
Record World := mkWorld {
  logs : list LogCall;
  response : Response;
  nextCalls : list NextCall
}.

Definition with_response (f : Response -> Response) (w : World) : World :=
  {| logs := logs w; response := f (response w); nextCalls := nextCalls w |}.

(** [logger.debug / info / warn / error (payload, message)] *)
Definition emit (l : Level) (p : Payload) (m : string) (w : World) : World :=
  {| logs := logs w ++ [mkLogCall l p m]; response := response w;
     nextCalls := nextCalls w |}.

(** [next()] and [next(error)] *)
Definition next (c : NextCall) (w : World) : World :=
  {| logs := logs w; response := response w; nextCalls := nextCalls w ++ [c] |}.

(** [res.status(code)] *)
Definition res_status (c : Z) (r : Response) : Response :=
  {| res_statusCode := c; res_headers := res_headers r; sent := sent r;
     finished := finished r; res_end := res_end r |}.

(** [res.setHeader(name, value)]: the table is keyed by the lower-cased
    name. *)
Definition res_setHeader (n : string) (v : HeaderValue) (r : Response) : Response :=
  {| res_statusCode := res_statusCode r;
     res_headers := <[JsString.toLowerCase n := v]> (res_headers r);
     sent := sent r; finished := finished r; res_end := res_end r |}.

(** [res.end = f] *)
Definition set_end (f : EndImpl) (r : Response) : Response :=
  {| res_statusCode := res_statusCode r; res_headers := res_headers r;
     sent := sent r; finished := finished r; res_end := f |}.

(** The [end] of the HTTP library: the first call writes the chunk, if
    one is given, and finishes the response; a later call changes
    nothing. *)
Definition native_end (chunk : option Chunk) (r : Response) : Response :=
  if finished r then r
  else {| res_statusCode := res_statusCode r; res_headers := res_headers r;
          sent := sent r ++ match chunk with Some c => [c] | None => [] end;
          finished := true; res_end := res_end r |}.

(** ** Request logger *)

Definition header_truthy (v : HeaderValue) : bool :=
  match v with
  | HStr s => JsString.truthy s
  | HArr _ => true
  | HUndef => false
  end.

(** [req.headers[name]] *)
Definition get_header (req : Request) (n : string) : HeaderValue :=
  default HUndef (headers req !! n).

(** [a || b] on optional strings *)
Definition or_string (a : option string) (b : string) : string :=
  match a with
  | Some s => if JsString.truthy s then s else b
  | None => b
  end.

(** The message of the response event:
    [`Response sent: ${res.statusCode} (${responseTime}ms)`]. *)
Definition response_message (st responseTime : Z) : string :=
  "Response sent: " ++ pretty st ++ " (" ++ pretty responseTime ++ "ms)".

(** A call [res.end(chunk)] when [res.end] holds [f]; [now] is what
    [Date.now()] returns during the call and [req] is the request
    object as it is during the call. *)
Fixpoint run_end (f : EndImpl) (now : Z) (req : Request) (chunk : option Chunk)
    (w : World) : World :=
  match f with
  | NativeEnd => with_response (native_end chunk) w
  | LoggingEnd startTime requestId originalEnd =>
      let responseTime := now - startTime in
      let st := res_statusCode (response w) in
      let logData :=
        ResponseLog requestId (method req) (url req) (path req) st responseTime in
      let message := response_message st responseTime in
      let w' :=
        if 500 <=? st then emit Error logData message w
        else if 400 <=? st then emit Warn logData message w
        else emit Info logData message w in
      run_end originalEnd now req chunk w'
  end.

(** The number of logging closures wrapped around the native [end]. *)
Fixpoint depth (f : EndImpl) : nat :=
  match f with
  | NativeEnd => O
  | LoggingEnd _ _ originalEnd => S (depth originalEnd)
  end.

Definition call_end (now : Z) (req : Request) (chunk : option Chunk) (w : World)
  : World :=
  run_end (res_end (response w)) now req chunk w.

(** [requestLogger(req, res, next)]. [now] is the reading of
    [Date.now()] on entry and [random] is [Math.random().toString(36)]. *)
Definition requestLogger (now : Z) (random : string) (req : Request) (w : World) : World :=
  let startTime := now in
  let requestId :=
    if header_truthy (get_header req "x-request-id")
    then get_header req "x-request-id"
    else HStr (JsString.substring 2 random) in
  let w1 := with_response (res_setHeader "x-request-id" requestId) w in
  let requestLog :=
    RequestLog requestId (method req) (url req) (path req) (query req)
               (getFilteredHeaders req)
               (or_string (ip req) (or_string (remoteAddress req) "unknown")) in
  let w2 := emit Debug requestLog "Request received" w1 in
  let originalEnd := res_end (response w2) in
  let w3 := with_response (set_end (LoggingEnd startTime requestId originalEnd)) w2 in
  next NextOk w3.

(** What a handler downstream of the logger does to the response, one
    call at a time. A call of [res.end] comes with the reading of the
    clock and with the request object as it is then: Express rewrites
    [req.url], and with it [req.path], while a handler mounted under a
    path runs. *)
Inductive Action :=
| ActStatus (code : Z)
| ActSetHeader (n : string) (v : HeaderValue)
| ActEnd (now : Z) (req : Request) (chunk : option Chunk).

Definition act (w : World) (a : Action) : World :=
  match a with
  | ActStatus c => with_response (res_status c) w
  | ActSetHeader n v => with_response (res_setHeader n v) w
  | ActEnd now req chunk => call_end now req chunk w
  end.

Definition run_actions (l : list Action) (w : World) : World :=
  fold_left act l w.

Definition is_end (a : Action) : bool :=
  match a with ActEnd _ _ _ => true | _ => false end.

Definition count_ends (l : list Action) : nat :=
  length (filter (fun a => is_end a = true) l).

(** ** The adapter of Hono middleware *)

(** The shim [c] that [honoAdapter] builds for one request. There is one
    per call, so a reference to it carries no data. *)
Inductive Context := TheContext.

(** What the shim's methods act on: the world of the real response, and
    the [Headers] object the shim holds in [c.res.headers], keyed by
    lower-cased name. *)
Record AdapterState := mkAdapterState {
  real : World;
  buffered : gmap string string
}.

(** [c.req.header(name)] *)
Definition c_req_header (req : Request) (n : string) : HeaderValue :=
  get_header req (JsString.toLowerCase n).

(** [c.res.status(code)] *)
Definition c_res_status (c : Z) (st : AdapterState) : Context * AdapterState :=
  (TheContext,
   {| real := with_response (res_status c) (real st); buffered := buffered st |}).

(** [c.res.body(body)] *)
Definition c_res_body (b : Chunk) (st : AdapterState) : Context * AdapterState :=
  (TheContext, st).

(** [c.header(name, value)] *)
Definition c_header (n v : string) (st : AdapterState) : Context * AdapterState :=
  (TheContext,
   {| real := with_response (res_setHeader n (HStr v)) (real st);
      buffered := buffered st |}).

(** [c.res.headers.set(name, value)] *)
Definition c_res_headers_set (n v : string) (st : AdapterState) : AdapterState :=
  {| real := real st; buffered := <[JsString.toLowerCase n := v]> (buffered st) |}.

(** [c.res.headers.get(name)] *)
Definition c_res_headers_get (n : string) (st : AdapterState) : option string :=
  buffered st !! JsString.toLowerCase n.

(** How a run of the middleware ends: it returns [result] ([None] is
    [undefined]) or throws. *)
Inductive Outcome (R : Type) :=
| Returned (result : option R)
| Thrown (error : Failure).

Arguments Returned {R} result.
Arguments Thrown {R} error.

(** A middleware handed to [honoAdapter], as the calls it makes on the
    shim and on the continuation it is given, each followed by what it
    does with the answer. *)
Inductive Evaluator (R : Type) :=
| Finish (o : Outcome R)
| ReadRaw (k : Request -> Evaluator R)
| ReadHeader (n : string) (k : HeaderValue -> Evaluator R)
| ReadMethod (k : string -> Evaluator R)
| ReadUrl (k : string -> Evaluator R)
| HeadersSet (n v : string) (k : Evaluator R)
| HeadersGet (n : string) (k : option string -> Evaluator R)
| ResStatus (c : Z) (k : Context -> Evaluator R)
| ResBody (b : Chunk) (k : Context -> Evaluator R)
| CHeader (n v : string) (k : Context -> Evaluator R)
| Continue (k : Evaluator R).

Arguments Finish {R} o.
Arguments ReadRaw {R} k.
Arguments ReadHeader {R} n k.
Arguments ReadMethod {R} k.
Arguments ReadUrl {R} k.
Arguments HeadersSet {R} n v k.
Arguments HeadersGet {R} n k.
Arguments ResStatus {R} c k.
Arguments ResBody {R} b k.
Arguments CHeader {R} n v k.
Arguments Continue {R} k.

(** [await middleware(c, async () => {})] *)
Fixpoint run_middleware {R} (m : Evaluator R) (req : Request) (st : AdapterState)
  : Outcome R * AdapterState :=
  match m with
  | Finish o => (o, st)
  | ReadRaw k => run_middleware (k req) req st
  | ReadHeader n k => run_middleware (k (c_req_header req n)) req st
  | ReadMethod k => run_middleware (k (method req)) req st
  | ReadUrl k => run_middleware (k (url req)) req st
  | HeadersSet n v k => run_middleware k req (c_res_headers_set n v st)
  | HeadersGet n k => run_middleware (k (c_res_headers_get n st)) req st
  | ResStatus c k =>
      let '(ctx, st') := c_res_status c st in run_middleware (k ctx) req st'
  | ResBody b k =>
      let '(ctx, st') := c_res_body b st in run_middleware (k ctx) req st'
  | CHeader n v k =>
      let '(ctx, st') := c_header n v st in run_middleware (k ctx) req st'
  | Continue k => run_middleware k req st
  end.

(** [honoAdapter(middleware)(req, res, next)]; [now] is the reading of
    [Date.now()] should [res.end] run. *)
Definition honoAdapter {R} (middleware : Evaluator R) (now : Z) (req : Request)
    (w : World) : World :=
  match run_middleware middleware req {| real := w; buffered := ∅ |} with
  | (Returned result, st) =>
      if bool_decide (result <> None) && String.eqb (method req) "OPTIONS"
      then call_end now req None (with_response (res_status 204) (real st))
      else next NextOk (real st)
  | (Thrown error, st) => next (NextError error) (real st)
  end.

(** The same middleware with its calls of [c.res.body] left out. *)
Fixpoint without_body {R} (m : Evaluator R) : Evaluator R :=
  match m with
  | Finish o => Finish o
  | ReadRaw k => ReadRaw (fun r => without_body (k r))
  | ReadHeader n k => ReadHeader n (fun v => without_body (k v))
  | ReadMethod k => ReadMethod (fun v => without_body (k v))
  | ReadUrl k => ReadUrl (fun v => without_body (k v))
  | HeadersSet n v k => HeadersSet n v (without_body k)
  | HeadersGet n k => HeadersGet n (fun v => without_body (k v))
  | ResStatus c k => ResStatus c (fun x => without_body (k x))
  | ResBody b k => without_body (k TheContext)
  | CHeader n v k => CHeader n v (fun x => without_body (k x))
  | Continue k => Continue (without_body k)
  end.

(** A call that the shim passes on to the real response. *)
Inductive RealCall :=
| RealStatus (c : Z)
| RealSetHeader (n v : string).

Definition apply_real (w : World) (c : RealCall) : World :=
  match c with
  | RealStatus c => with_response (res_status c) w
  | RealSetHeader n v => with_response (res_setHeader n (HStr v)) w
  end.

(** The calls of [c.res.status] and [c.header] that a run of the
    middleware makes, in order. *)
Fixpoint real_calls {R} (m : Evaluator R) (req : Request) (st : AdapterState)
  : list RealCall :=
  match m with
  | Finish o => []
  | ReadRaw k => real_calls (k req) req st
  | ReadHeader n k => real_calls (k (c_req_header req n)) req st
  | ReadMethod k => real_calls (k (method req)) req st
  | ReadUrl k => real_calls (k (url req)) req st
  | HeadersSet n v k => real_calls k req (c_res_headers_set n v st)
  | HeadersGet n k => real_calls (k (c_res_headers_get n st)) req st
  | ResStatus c k =>
      RealStatus c :: real_calls (k TheContext) req (snd (c_res_status c st))
  | ResBody b k => real_calls (k TheContext) req (snd (c_res_body b st))
  | CHeader n v k =>
      RealSetHeader n v :: real_calls (k TheContext) req (snd (c_header n v st))
  | Continue k => real_calls k req st
  end.

(** ** Error handler *)

(** [a || b] on optional numbers: zero and [undefined] are falsy. *)
Definition or_number (a : option Z) (b : Z) : Z :=
  match a with
  | Some n => if n =? 0 then b else n
  | None => b
  end.

(** [errorHandler(err, req, res, next)] as far as its own code goes: the
    world after [logger.error(...)] and [res.status(statusCode)], and
    the envelope that it hands to [res.json]. [IS_PRODUCTION] is
    [SERVER.IS_PRODUCTION] and [iso] is [new Date().toISOString()]. What
    [res.json] does with the envelope is Express's part, [res_json]
    below. *)
Definition errorHandler (IS_PRODUCTION : bool) (iso : string)
    (err : Failure) (req : Request) (w : World) : World * ErrorResponse :=
  let statusCode := or_number (status err) (or_number (statusCode err) 500) in
  let errorMessage := or_string (message err) "Internal Server Error" in
  let w1 :=
    emit Error
      (ErrorLog (if isError err then inl err else inr (repr err))
                (if isError err then stack err else None)
                (path req) (method req) (url req))
      "Request error" w in
  let errorDetails :=
    if negb IS_PRODUCTION
    then Some {| details_name := name err; details_stack := stack err |}
    else None in
  let errorResponse :=
    {| error := {| code := statusCode; error_message := errorMessage;
                   details := errorDetails |};
       success := false;
       timestamp := iso;
       error_path := path req |} in
  (with_response (res_status statusCode) w1, errorResponse).

(** Express's [res.json(body)], where its course is plain: no header
    has gone out and the response is not finished, the request is not a
    [HEAD], and the status of the response is an error status, 400 to
    599. There the body goes out through one call of [res.end].
    [headersSent] is [res.headersSent] at the call and [now] what
    [Date.now()] returns during it. Elsewhere Express or the HTTP
    library raises an exception (headers already sent, a status outside
    100 to 999) or sends the response without the body ([HEAD], statuses
    that carry none) or may change the status (a conditional request
    answered with a 2xx); these courses are not followed, and the
    result is [None]. *)
Definition res_json (headersSent : bool) (now : Z) (req : Request)
    (b : ErrorResponse) (w : World) : option World :=
  if negb headersSent
     && negb (finished (response w))
     && negb (String.eqb (method req) "HEAD")
     && (400 <=? res_statusCode (response w))
     && (res_statusCode (response w) <=? 599)
  then Some (call_end now req (Some (ChunkJson b)) w)
  else None.

(** [errorHandler] with Express's [res.json] after it. *)
Definition errorHandler_sent (headersSent IS_PRODUCTION : bool) (iso : string)
    (now : Z) (err : Failure) (req : Request) (w : World) : option World :=
  let '(w1, body) := errorHandler IS_PRODUCTION iso err req w in
  res_json headersSent now req body w1.

(** ** The logger's options *)





(** ** The entry point of the server *)

Module Server.

(** The signals the entry point names. *)
Inductive Signal := SIGINT | SIGTERM.

#[global] Instance Signal_eq_dec : EqDecision Signal.
Proof. solve_decision. Defined.

(** [PORT]: a string from the environment or the number 3000. *)
Definition Port : Type := (string + Z)%type.

(** The payloads of type [server] handed to the logger. *)
Inductive ServerPayload :=
| Running (port : Port) (env : string) (cloudflare : bool)
| Stopping (signal : Signal)
| Bare.

Record ServerLog := mkServerLog {
  slevel : Level;
  spayload : ServerPayload;
  smsg : string
}.

(** The process as the entry point acts on it: what it has logged, the
    port given to [app.listen] whose callback has not run yet, the
    signals with a handler, how many callbacks given to [server.close]
    and how many timers wait, and the code given to [process.exit]. *)
Record Process := mkProcess {
  out : list ServerLog;
  listenPending : option Port;
  handlers : list Signal;
  closing : nat;
  timers : nat;
  exited : option Z
}.

(** [process.env.PORT || 3000] *)
Definition PORT (env_PORT : option string) : Port :=
  match env_PORT with
  | Some p => if JsString.truthy p then inl p else inr 3000
  | None => inr 3000
  end.

(** [process.env.USE_CLOUDFLARE === 'true'] *)
Definition USE_CLOUDFLARE (env_USE_CLOUDFLARE : option string) : bool :=
  match env_USE_CLOUDFLARE with
  | Some v => String.eqb v "true"
  | None => false
  end.

(** [`${PORT}`] *)
Definition port_text (p : Port) : string :=
  match p with
  | inl s => s
  | inr n => pretty n
  end.

(** The process once the module has run: outside production the server
    is asked to listen and the two handlers are installed. *)
Definition main (env_NODE_ENV env_PORT : option string) : Process :=
  if match env_NODE_ENV with
     | Some e => negb (String.eqb e "production")
     | None => true
     end
  then {| out := []; listenPending := Some (PORT env_PORT);
          handlers := [SIGINT; SIGTERM]; closing := 0; timers := 0;
          exited := None |}
  else {| out := []; listenPending := None; handlers := []; closing := 0;
          timers := 0; exited := None |}.

(** A callback of the entry point that the runtime comes to call. *)
Inductive Event :=
| Listening
| Signalled (s : Signal)
| Closed
| TimedOut.

(** The callback of [app.listen]; [NODE_ENV] is [SERVER.NODE_ENV]. *)
Definition on_listening (NODE_ENV : string) (cloudflare : bool) (port : Port)
    (p : Process) : Process :=
  {| out := out p ++
            [mkServerLog Info (Running port NODE_ENV cloudflare)
               ("Server is running locally at http://localhost:" ++ port_text port)];
     listenPending := None; handlers := handlers p; closing := closing p;
     timers := timers p; exited := exited p |}.

(** The handler of a signal: it logs, hands a callback to
    [server.close] and arms a timer. *)
Definition on_signal (s : Signal) (p : Process) : Process :=
  {| out := out p ++
            [mkServerLog Info (Stopping s) "Shutting down local server..."];
     listenPending := listenPending p; handlers := handlers p;
     closing := S (closing p); timers := S (timers p); exited := exited p |}.

(** The callback given to [server.close]. *)
Definition on_closed (p : Process) : Process :=
  {| out := out p ++ [mkServerLog Info Bare "Server closed cleanly."];
     listenPending := listenPending p; handlers := handlers p;
     closing := closing p; timers := timers p; exited := Some 0 |}.

(** The callback of the timer. *)
Definition on_timeout (p : Process) : Process :=
  {| out := out p ++
            [mkServerLog Error Bare
               "Server did not close gracefully. Forcing exit."];
     listenPending := listenPending p; handlers := handlers p;
     closing := closing p; timers := timers p; exited := Some 1 |}.

(** One call by the runtime; [None] when the runtime has no such
    callback to call: the process has exited, or the callback was never
    registered. [NODE_ENV] is [SERVER.NODE_ENV] and [cloudflare] is the
    constant [USE_CLOUDFLARE]. *)
Definition step (NODE_ENV : string) (cloudflare : bool) (p : Process)
    (e : Event) : option Process :=
  match exited p with
  | Some _ => None
  | None =>
      match e with
      | Listening =>
          match listenPending p with
          | Some port => Some (on_listening NODE_ENV cloudflare port p)
          | None => None
          end
      | Signalled s =>
          if bool_decide (s ∈ handlers p) then Some (on_signal s p) else None
      | Closed =>
          match closing p with
          | O => None
          | S _ => Some (on_closed p)
          end
      | TimedOut =>
          match timers p with
          | O => None
          | S _ => Some (on_timeout p)
          end
      end
  end.

(** A sequence of calls, from left to right. *)
Fixpoint run (NODE_ENV : string) (cloudflare : bool) (p : Process)
    (l : list Event) : option Process :=
  match l with
  | [] => Some p
  | e :: r =>
      match step NODE_ENV cloudflare p e with
      | Some p' => run NODE_ENV cloudflare p' r
      | None => None
      end
  end.

Definition is_signal (e : Event) : bool :=
  match e with Signalled _ => true | _ => false end.

End Server.

(** ** Sample inputs *)

Module Sample.

Definition req_get : Request :=
  {| method := "GET"; url := "/proxy?u=1"; path := "/proxy"; query := "u=1";
     headers := {[ "x-request-id" := HStr "abc123";
                   "Authorization" := HStr "Bearer X";
                   "accept" := HArr ["text/html"; "*/*"];
                   "origin" := HStr "https://a.example" ]};
     ip := None; remoteAddress := Some "10.0.0.7" |}.

Definition req_options : Request :=
  {| method := "OPTIONS"; url := "/proxy"; path := "/proxy"; query := "";
     headers := {[ "origin" := HStr "https://a.example" ]};
     ip := Some "10.0.0.7"; remoteAddress := None |}.

(** A request whose [x-request-id] header is there and empty. *)
Definition req_empty_id : Request :=
  {| method := "GET"; url := "/"; path := "/"; query := "";
     headers := {[ "x-request-id" := HStr "" ]};
     ip := None; remoteAddress := None |}.

Definition fresh_response : Response :=
  {| res_statusCode := 200; res_headers := ∅; sent := []; finished := false;
     res_end := NativeEnd |}.

Definition fresh : World :=
  {| logs := []; response := fresh_response; nextCalls := [] |}.

(** A policy evaluator of the shape of Hono's [cors]: it reads the
    origin, stores the policy headers in [c.res.headers], answers a
    preflight with a value of its own and otherwise goes on to the
    continuation. *)
Definition cors : Evaluator string :=
  ReadHeader "Origin" (fun origin =>
  HeadersSet "Access-Control-Allow-Origin"
             (match origin with HStr s => s | _ => "" end)
  (HeadersSet "Access-Control-Allow-Credentials" "true"
  (ReadMethod (fun m =>
     if String.eqb m "OPTIONS"
     then HeadersSet "Access-Control-Max-Age" "86400"
            (Finish (Returned (Some "204 No Content")))
     else Continue (Finish (Returned None)))))).

(** An evaluator that uses every surface of the shim. *)
Definition busy : Evaluator string :=
  ResStatus 403 (fun _ =>
  ResBody (ChunkText "forbidden") (fun _ =>
  CHeader "Vary" "Origin" (fun _ =>
  HeadersSet "X-Buffered" "1" (Finish (Returned None))))).

Definition boom : Failure :=
  {| status := None; statusCode := None; message := Some "policy failed";
     name := Some "Error"; stack := Some "Error: policy failed\n    at cors";
     isError := true; repr := "Error: policy failed" |}.

(** An evaluator that sets a header and then throws. *)
Definition throwing : Evaluator string :=
  CHeader "Vary" "Origin" (fun _ => Finish (Thrown boom)).



End Sample.

(** ** More sample inputs *)

Module Fixture.

(** The sample request with other credentials. *)
Definition req_get_other : Request :=
  set_headers
    {[ "x-request-id" := HStr "abc123";
       "Authorization" := HStr "Bearer Y";
       "accept" := HArr ["text/html"; "*/*"];
       "origin" := HStr "https://a.example" ]}
    Sample.req_get.

(** A request with headers of every kind: sensitive names in several
    cases, one of them with a list, a list, an absent value and a
    string. *)
Definition req_mixed : Request :=
  {| method := "POST"; url := "/proxy"; path := "/proxy"; query := "";
     headers := {[ "Authorization" := HStr "Bearer X";
                   "COOKIE" := HStr "sid=9";
                   "Set-Cookie" := HArr ["a=1"; "b=2"];
                   "accept" := HArr ["text/html"; "application/json"; "*/*"];
                   "x-forwarded-for" := HUndef;
                   "host" := HStr "proxy.example" ]};
     ip := None; remoteAddress := None |}.

(** The sample request as a handler mounted under [/proxy] sees it:
    Express has taken the mount path off [req.url]. *)
Definition req_get_mounted : Request :=
  {| method := method Sample.req_get; url := "/?u=1"; path := "/";
     query := query Sample.req_get; headers := headers Sample.req_get;
     ip := ip Sample.req_get; remoteAddress := remoteAddress Sample.req_get |}.

(** A world in which [requestLogger] has run on the sample request. *)
Definition logged : World :=
  requestLogger 10 "0.4fzyo82mvyr" Sample.req_options Sample.fresh.

(** A failure that is not an [Error]: a thrown string. *)
Definition thrown_string : Failure :=
  {| status := None; statusCode := None; message := None; name := None;
     stack := None; isError := false; repr := "upstream refused" |}.

End Fixture.

(** * Properties *)

(** ** Strings *)

Section Strings.

Import JsString.

Lemma ascii_toLowerCase_code (c : ascii) :
  N_of_ascii (ascii_toLowerCase c) = lower_code (N_of_ascii c).
Proof.
  unfold ascii_toLowerCase, is_upper, lower_code.
  pose proof (N_ascii_bounded c) as Hb.
  destruct ((65 <=? N_of_ascii c) && (N_of_ascii c <=? 90))%N eqn:E; [|done].
  apply andb_prop in E as [_ E2]. apply N.leb_le in E2.
  apply N_ascii_embedding. lia.
Qed.

Lemma N_of_ascii_inj (a b : ascii) : N_of_ascii a = N_of_ascii b -> a = b.
Proof.
  intros H. rewrite <- (ascii_N_embedding a), <- (ascii_N_embedding b).
  by rewrite H.
Qed.

Lemma ascii_eq_nocase_spec (a b : ascii) :
  ascii_eq_nocase a b = true <-> ascii_toLowerCase a = ascii_toLowerCase b.
Proof.
  split.
  - intros H. apply N_of_ascii_inj. rewrite !ascii_toLowerCase_code.
    revert H. unfold ascii_eq_nocase, is_upper, lower_code.
    repeat match goal with
           | |- context [(?x <=? ?y)%N] => destruct (N.leb_spec x y)
           | |- context [(?x =? ?y)%N] => destruct (N.eqb_spec x y)
           end; simpl; intros; try discriminate; lia.
  - intros H. apply (f_equal N_of_ascii) in H.
    rewrite !ascii_toLowerCase_code in H.
    revert H. unfold ascii_eq_nocase, is_upper, lower_code.
    repeat match goal with
           | |- context [(?x <=? ?y)%N] => destruct (N.leb_spec x y)
           | |- context [(?x =? ?y)%N] => destruct (N.eqb_spec x y)
           end; simpl; intros; try reflexivity; lia.
Qed.

Lemma eq_nocase_spec (s t : string) :
  eq_nocase s t = true <-> toLowerCase s = toLowerCase t.
Proof.
  revert t. induction s as [|a r IH]; intros [|b q]; simpl; try easy.
  rewrite andb_true_iff, ascii_eq_nocase_spec, IH. split.
  - intros [-> ->]. reflexivity.
  - intros H. by injection H.
Qed.

(** Against a name written in small letters, equality up to case is
    what the code tests: equality after [toLowerCase]. *)
Lemma eq_nocase_lower (key n : string) :
  toLowerCase n = n -> eq_nocase key n = String.eqb (toLowerCase key) n.
Proof.
  intros Hn. apply eq_true_iff_eq.
  rewrite eq_nocase_spec, String.eqb_eq, Hn. reflexivity.
Qed.

Lemma is_sensitive_includes (key : string) :
  is_sensitive key = includes sensitiveHeaders (toLowerCase key).
Proof.
  unfold is_sensitive, includes, sensitiveHeaders. simpl existsb.
  by rewrite !eq_nocase_lower.
Qed.

Lemma truthy_id (s : string) : (if truthy s then s else "") = s.
Proof. by destruct s. Qed.

End Strings.

(** ** Header filter *)

Lemma getFilteredHeaders_lookup (req : Request) (key : string) :
  getFilteredHeaders req !! key = filterHeader key <$> headers req !! key.
Proof.
  unfold getFilteredHeaders.
  apply (map_fold_weak_ind
           (fun (acc : gmap string string) (m : gmap string HeaderValue) =>
              acc !! key = filterHeader key <$> m !! key)).
  - by rewrite !lookup_empty.
  - intros i x m r _ IH. destruct (decide (i = key)) as [->|Hne].
    + by rewrite !lookup_insert_eq.
    + by rewrite !lookup_insert_ne.
Qed.

Lemma join_concat (sep : string) (l : list string) :
  JsString.join sep l = String.concat sep l.
Proof.
  induction l as [|x r IH]; [done|]. simpl. rewrite IH. by destruct r.
Qed.

(** C2. [getFilteredHeaders] is a total function whose result has an
    entry exactly for the names of [req.headers], and the entry of a
    name is: the marker [[REDACTED]] when the name equals
    [authorization], [cookie] or [set-cookie] up to case; otherwise the
    elements in order with [", "] between them when the value is a
    list, the empty string when the value is absent, and the value
    itself when it is a string. *)
Theorem getFilteredHeaders_spec (req : Request) (key : string) :
  getFilteredHeaders req !! key =
  match headers req !! key with
  | None => None
  | Some v =>
      Some (if JsString.eq_nocase key "authorization"
               || JsString.eq_nocase key "cookie"
               || JsString.eq_nocase key "set-cookie"
            then "[REDACTED]"
            else match v with
                 | HStr s => s
                 | HArr l => String.concat ", " l
                 | HUndef => ""
                 end)
  end.
Proof.
  rewrite getFilteredHeaders_lookup.
  destruct (headers req !! key) as [v|]; [|done]. simpl.
  unfold filterHeader. rewrite <- is_sensitive_includes.
  unfold is_sensitive, sensitiveHeaders. simpl existsb. rewrite orb_false_r.
  rewrite orb_assoc.
  destruct (JsString.eq_nocase key "authorization"
            || JsString.eq_nocase key "cookie"
            || JsString.eq_nocase key "set-cookie"); [done|].
  destruct v; [by rewrite truthy_id | by rewrite join_concat | done].
Qed.

Lemma getFilteredHeaders_spec_witness :
  getFilteredHeaders Fixture.req_mixed !! "Authorization" = Some "[REDACTED]"
  /\ getFilteredHeaders Fixture.req_mixed !! "COOKIE" = Some "[REDACTED]"
  /\ getFilteredHeaders Fixture.req_mixed !! "Set-Cookie" = Some "[REDACTED]"
  /\ getFilteredHeaders Fixture.req_mixed !! "accept"
     = Some "text/html, application/json, */*"
  /\ getFilteredHeaders Fixture.req_mixed !! "x-forwarded-for" = Some ""
  /\ getFilteredHeaders Fixture.req_mixed !! "host" = Some "proxy.example"
  /\ getFilteredHeaders Fixture.req_mixed !! "referer" = None.
Proof.
  rewrite !getFilteredHeaders_spec. vm_compute. repeat split; reflexivity.
Defined.

(** The sample request: the [Authorization] header is redacted whatever
    the case of its name, the list is joined, the rest is kept. *)
Example getFilteredHeaders_sample :
  getFilteredHeaders Sample.req_get
  = {[ "x-request-id" := "abc123";
       "Authorization" := "[REDACTED]";
       "accept" := "text/html, */*";
       "origin" := "https://a.example" ]}.
Proof. vm_compute. reflexivity. Qed.

(** C8. Filtering the headers a second time changes nothing: the record
    that [getFilteredHeaders] returns, taken as the headers of the
    request, is filtered to itself. *)
Theorem getFilteredHeaders_idempotent (req : Request) :
  getFilteredHeaders (set_headers (HStr <$> getFilteredHeaders req) req)
  = getFilteredHeaders req.
Proof.
  apply map_eq. intros key.
  rewrite (getFilteredHeaders_lookup (set_headers _ _)). simpl.
  rewrite lookup_fmap, getFilteredHeaders_lookup.
  destruct (headers req !! key) as [v|]; [|done]. simpl. f_equal.
  unfold filterHeader.
  destruct (JsString.includes sensitiveHeaders (JsString.toLowerCase key));
    [done|].
  apply truthy_id.
Qed.

(** ** The response and its [end] *)

Section ResponseEnd.

Lemma count_terminal_app (l k : list LogCall) :
  count_terminal (l ++ k) = (count_terminal l + count_terminal k)%nat.
Proof. unfold count_terminal. by rewrite filter_app, length_app. Qed.

Lemma count_terminal_response l rid m u p st rt msg0 :
  count_terminal [mkLogCall l (ResponseLog rid m u p st rt) msg0] = 1%nat.
Proof. reflexivity. Qed.

Lemma count_terminal_request l rid m u p q h a msg0 :
  count_terminal [mkLogCall l (RequestLog rid m u p q h a) msg0] = 0%nat.
Proof. reflexivity. Qed.

Lemma native_end_res_end chunk r : res_end (native_end chunk r) = res_end r.
Proof. unfold native_end. by destruct (finished r). Qed.

Lemma native_end_statusCode chunk r :
  res_statusCode (native_end chunk r) = res_statusCode r.
Proof. unfold native_end. by destruct (finished r). Qed.

Lemma native_end_headers chunk r :
  res_headers (native_end chunk r) = res_headers r.
Proof. unfold native_end. by destruct (finished r). Qed.

Lemma native_end_finished chunk r : finished (native_end chunk r) = true.
Proof. unfold native_end. by destruct (finished r) eqn:E. Qed.

Lemma native_end_sent_none r : sent (native_end None r) = sent r.
Proof. unfold native_end. destruct (finished r); [done|]. simpl. apply app_nil_r. Qed.

Lemma native_end_sent_first c r :
  finished r = false -> sent (native_end (Some c) r) = (sent r ++ [c])%list.
Proof. intros H. unfold native_end. by rewrite H. Qed.

(** Whatever closures are installed, the response goes through the
    native [end] once per call. *)
Lemma run_end_response f now req chunk w :
  response (run_end f now req chunk w) = native_end chunk (response w).
Proof.
  revert w. induction f as [|startTime requestId f IH]; intros w; [done|].
  simpl. rewrite IH. by repeat case_match.
Qed.

Lemma run_end_nextCalls f now req chunk w :
  nextCalls (run_end f now req chunk w) = nextCalls w.
Proof.
  revert w. induction f as [|startTime requestId f IH]; intros w; [done|].
  simpl. rewrite IH. by repeat case_match.
Qed.

(** A call of [end] emits one response event per installed closure. *)
Lemma run_end_count f now req chunk w :
  count_terminal (logs (run_end f now req chunk w))
  = (count_terminal (logs w) + depth f)%nat.
Proof.
  revert w. induction f as [|startTime requestId f IH]; intros w.
  - simpl. lia.
  - simpl. rewrite IH.
    repeat case_match; simpl;
      rewrite count_terminal_app, count_terminal_response; lia.
Qed.

(** The event that the closure of [requestLogger] emits. *)
Lemma run_end_logging_logs startTime requestId req now chunk w :
  let st := res_statusCode (response w) in
  logs (run_end (LoggingEnd startTime requestId NativeEnd) now req chunk w)
  = (logs w ++
     [ {| level := if 500 <=? st then Error
                   else if 400 <=? st then Warn else Info;
          payload := ResponseLog requestId (method req) (url req) (path req)
                                 st (now - startTime);
          msg := response_message st (now - startTime) |} ])%list.
Proof. simpl. by repeat case_match. Qed.

Lemma act_res_end w a : res_end (response (act w a)) = res_end (response w).
Proof.
  destruct a; simpl; try done.
  unfold call_end. rewrite run_end_response. apply native_end_res_end.
Qed.

Lemma run_actions_res_end acts w :
  res_end (response (run_actions acts w)) = res_end (response w).
Proof.
  revert w. induction acts as [|a acts IH]; intros w; [done|].
  simpl. unfold run_actions in IH. by rewrite IH, act_res_end.
Qed.

Lemma run_actions_count acts w :
  count_terminal (logs (run_actions acts w))
  = (count_terminal (logs w) + count_ends acts * depth (res_end (response w)))%nat.
Proof.
  revert w. induction acts as [|a acts IH]; intros w.
  - simpl. unfold count_ends. simpl. lia.
  - unfold run_actions in *. cbn [fold_left]. rewrite IH, act_res_end.
    destruct a; unfold count_ends; cbn [act]; rewrite ?filter_cons; simpl;
      try lia.
    unfold call_end. rewrite run_end_count. lia.
Qed.

Lemma requestLogger_res_end now random req w :
  exists requestId,
    res_end (response (requestLogger now random req w))
    = LoggingEnd now requestId (res_end (response w)).
Proof. unfold requestLogger. simpl. eauto. Qed.

Lemma requestLogger_count now random req w :
  count_terminal (logs (requestLogger now random req w)) = count_terminal (logs w).
Proof.
  unfold requestLogger. simpl.
  rewrite count_terminal_app, count_terminal_request. lia.
Qed.

End ResponseEnd.

(** ** Request logger *)

(** C1, as the code has it. On a response whose [end] is the native
    one, [requestLogger] emits no terminal event itself, and afterwards
    every call of [res.end] emits one: a request whose response is ended
    [n] times yields [n] terminal events, so exactly one when it is
    ended once. *)
Theorem requestLogger_terminal_per_end now random req w (acts : list Action) :
  res_end (response w) = NativeEnd ->
  count_terminal (logs (run_actions acts (requestLogger now random req w)))
  = (count_terminal (logs w) + count_ends acts)%nat.
Proof.
  intros Hnative. rewrite run_actions_count, requestLogger_count.
  destruct (requestLogger_res_end now random req w) as [rid ->].
  rewrite Hnative. simpl. lia.
Qed.

Lemma requestLogger_terminal_per_end_witness :
  res_end (response Sample.fresh) = NativeEnd /\
  count_terminal
    (logs (run_actions [ActStatus 201; ActEnd 15 Sample.req_get (Some (ChunkText "ok"))]
             (requestLogger 10 "0.4fzyo82mvyr" Sample.req_get Sample.fresh)))
  = 1%nat.
Proof.
  split; [reflexivity|].
  exact (requestLogger_terminal_per_end 10 "0.4fzyo82mvyr" Sample.req_get
           Sample.fresh [ActStatus 201; ActEnd 15 Sample.req_get (Some (ChunkText "ok"))]
           eq_refl).
Defined.

(** C1 as stated fails: a request whose response has [res.end] called
    twice yields two terminal events, not one. *)
Lemma requestLogger_two_ends_two_events :
  count_terminal
    (logs (run_actions [ActEnd 15 Sample.req_get (Some (ChunkText "ok"));
                           ActEnd 16 Sample.req_get None]
             (requestLogger 10 "0.4fzyo82mvyr" Sample.req_get Sample.fresh)))
  <> 1%nat.
Proof. vm_compute. discriminate. Qed.

Lemma requestLogger_header now random req w :
  res_headers (response (requestLogger now random req w)) !! "x-request-id"
  = Some (if header_truthy (get_header req "x-request-id")
          then get_header req "x-request-id"
          else HStr (JsString.substring 2 random)).
Proof. unfold requestLogger. simpl. apply lookup_insert_eq. Qed.

(** C3, as the code has it. When the request carries an [x-request-id]
    header whose value is not empty, the response header [x-request-id]
    is that value. When the header is missing or its value is empty,
    the response header is [Math.random().toString(36)] without its
    first two characters; when that rendering is ["0."] followed by
    base-36 digits, at least one, the header is a non-empty string of
    base-36 digits. *)
Theorem requestLogger_request_id now random req w :
  let out :=
    res_headers (response (requestLogger now random req w)) !! "x-request-id" in
  (forall v, headers req !! "x-request-id" = Some v ->
             header_truthy v = true -> out = Some v)
  /\ (headers req !! "x-request-id" = None
      \/ headers req !! "x-request-id" = Some (HStr "")
      \/ headers req !! "x-request-id" = Some HUndef ->
      out = Some (HStr (JsString.substring 2 random))
      /\ (JsString.is_fraction36 random = true ->
          exists id, out = Some (HStr id)
                     /\ id <> "" /\ JsString.all_digit36 id = true)).
Proof.
  intros out. subst out. rewrite requestLogger_header. unfold get_header.
  split.
  - intros v -> Hv. simpl. by rewrite Hv.
  - intros H.
    assert (header_truthy (default HUndef (headers req !! "x-request-id")) = false)
      as -> by (destruct H as [->|[->| ->]]; reflexivity).
    split; [done|]. intros Hr. exists (JsString.substring 2 random).
    split; [done|]. unfold JsString.is_fraction36 in Hr.
    destruct random as [|a [|b ds]]; try discriminate.
    { by repeat case_match. }
    assert (JsString.truthy ds && JsString.all_digit36 ds = true) as Hds
      by (by repeat case_match).
    apply andb_prop in Hds as [Ht Hd]. simpl. split; [|done].
    intros ->. discriminate.
Qed.

Lemma requestLogger_request_id_witness :
  res_headers
    (response (requestLogger 10 "0.4fzyo82mvyr" Sample.req_get Sample.fresh))
    !! "x-request-id" = Some (HStr "abc123")
  /\ exists id,
       res_headers
         (response (requestLogger 10 "0.4fzyo82mvyr" Sample.req_options Sample.fresh))
         !! "x-request-id" = Some (HStr id)
       /\ id <> "" /\ JsString.all_digit36 id = true.
Proof.
  assert (headers Sample.req_get !! "x-request-id" = Some (HStr "abc123"))
    as Hget by (vm_compute; reflexivity).
  assert (headers Sample.req_options !! "x-request-id" = None)
    as Hopt by (vm_compute; reflexivity).
  split.
  - exact (proj1 (requestLogger_request_id 10 "0.4fzyo82mvyr" Sample.req_get
                    Sample.fresh) (HStr "abc123") Hget eq_refl).
  - exact (proj2 (proj2 (requestLogger_request_id 10 "0.4fzyo82mvyr"
                           Sample.req_options Sample.fresh)
                        (or_introl Hopt)) eq_refl).
Defined.

(** C3 as stated fails on a header that is there and empty: the
    response does not carry the inbound value but a generated one. *)
Lemma requestLogger_empty_request_id :
  headers Sample.req_empty_id !! "x-request-id" = Some (HStr "")
  /\ res_headers
       (response (requestLogger 10 "0.4fzyo82mvyr" Sample.req_empty_id Sample.fresh))
       !! "x-request-id" <> Some (HStr "").
Proof. split; [vm_compute; reflexivity | vm_compute; discriminate]. Qed.

(** When [Math.random()] draws zero, its rendering is ["0"] and the
    generated id is the empty string. *)
Example requestLogger_zero_draw :
  res_headers
    (response (requestLogger 10 "0" Sample.req_options Sample.fresh))
    !! "x-request-id" = Some (HStr "").
Proof. vm_compute. reflexivity. Qed.

(** C4. After [requestLogger], a call of [res.end] appends one event to
    the log, of type [response]; with [st] the status code of the
    response at that moment, its level is [error] when [st >= 500],
    [warn] when [400 <= st < 500] and [info] otherwise, and its message
    is ["Response sent: "], [st] in decimal, [" ("], the milliseconds
    elapsed since entry in decimal, and ["ms)"]. *)
Theorem response_log_severity start random req w (acts : list Action) now cur
    chunk :
  res_end (response w) = NativeEnd ->
  let w1 := run_actions acts (requestLogger start random req w) in
  let st := res_statusCode (response w1) in
  exists e,
    logs (call_end now cur chunk w1) = (logs w1 ++ [e])%list
    /\ payload_type (payload e) = Some "response"
    /\ (500 <= st -> level e = Error)
    /\ (400 <= st < 500 -> level e = Warn)
    /\ (st < 400 -> level e = Info)
    /\ msg e = "Response sent: " ++ pretty st ++ " (" ++ pretty (now - start) ++ "ms)".
Proof.
  intros Hnative w1 st. unfold call_end.
  assert (exists rid, res_end (response w1) = LoggingEnd start rid NativeEnd)
    as [rid ->].
  { subst w1. rewrite run_actions_res_end.
    destruct (requestLogger_res_end start random req w) as [rid ->].
    rewrite Hnative. eauto. }
  rewrite run_end_logging_logs. fold st. eexists. split; [reflexivity|].
  simpl. split; [done|].
  repeat split; intros; repeat case_match; try done; lia.
Qed.

Lemma response_log_severity_witness :
  res_end (response Sample.fresh) = NativeEnd /\
  exists e,
    logs (call_end 15 Sample.req_get None
            (run_actions [ActStatus 404]
               (requestLogger 10 "0.4fzyo82mvyr" Sample.req_get Sample.fresh)))
    = (logs (run_actions [ActStatus 404]
               (requestLogger 10 "0.4fzyo82mvyr" Sample.req_get Sample.fresh))
       ++ [e])%list
    /\ level e = Warn
    /\ msg e = "Response sent: 404 (5ms)".
Proof.
  split; [reflexivity|].
  destruct (response_log_severity 10 "0.4fzyo82mvyr" Sample.req_get Sample.fresh
              [ActStatus 404] 15 Sample.req_get None eq_refl)
    as (e & Hlogs & _ & _ & Hwarn & _ & Hmsg).
  exists e. split; [exact Hlogs|]. split.
  - apply Hwarn. vm_compute. split; [discriminate | reflexivity].
  - exact Hmsg.
Defined.

(** Statuses 200, 404 and 500 are logged at [info], [warn] and [error]. *)
Example response_log_levels :
  map level
    (logs (run_actions [ActEnd 11 Sample.req_options None; ActStatus 404;
                        ActEnd 12 Sample.req_options None;
                        ActStatus 500; ActEnd 13 Sample.req_options None]
             (requestLogger 10 "0.4fzyo82mvyr" Sample.req_options Sample.fresh)))
  = [Debug; Info; Warn; Error].
Proof. vm_compute. reflexivity. Qed.

(** ** The adapter *)

Section Adapter.

Context {R : Type}.

(** Induction on a middleware, with the state generalised. *)
Ltac evaluator_induction m st :=
  revert st;
  induction m as [o|k IH|n k IH|k IH|k IH|n v k IH|n k IH
                 |c k IH|b k IH|n v k IH|k IH];
  intros st; simpl.

(** The shim gives a middleware no way to write a body, to finish the
    response, to log, to call [next] or to replace [res.end]. *)
Lemma run_middleware_frame (m : Evaluator R) req st :
  let w' := real (snd (run_middleware m req st)) in
  logs w' = logs (real st)
  /\ nextCalls w' = nextCalls (real st)
  /\ sent (response w') = sent (response (real st))
  /\ finished (response w') = finished (response (real st))
  /\ res_end (response w') = res_end (response (real st)).
Proof.
  evaluator_induction m st.
  all: try (apply IH). all: try done.
  - exact (IH (c_res_headers_set n v st)).
  - exact (IH TheContext
              {| real := with_response (res_status c) (real st);
                 buffered := buffered st |}).
  - exact (IH TheContext
              {| real := with_response (res_setHeader n (HStr v)) (real st);
                 buffered := buffered st |}).
Qed.

(** The real response after a run is the one before it with the calls
    of [c.res.status] and [c.header] applied in order, and nothing
    else. *)
Lemma run_middleware_real (m : Evaluator R) req st :
  real (snd (run_middleware m req st))
  = fold_left apply_real (real_calls m req st) (real st).
Proof.
  evaluator_induction m st; rewrite ?IH; done.
Qed.

Lemma run_middleware_without_body (m : Evaluator R) req st :
  run_middleware (without_body m) req st = run_middleware m req st.
Proof.
  evaluator_induction m st; try (apply IH); done.
Qed.

Lemma call_end_none_response now req w :
  response (call_end now req None w) = native_end None (response w).
Proof. unfold call_end. apply run_end_response. Qed.

(** C5. Let the evaluator return. When the method is [OPTIONS] and the
    result is defined, the adapter leaves the response with status 204,
    finished, with no body chunk written, and makes no call of [next].
    When the method is not [OPTIONS], the adapter makes one call
    [next()], and leaves the response and the log as the evaluator left
    them. *)
Theorem honoAdapter_dispatch (m : Evaluator R) now req w result st :
  run_middleware m req {| real := w; buffered := ∅ |} = (Returned result, st) ->
  let w' := honoAdapter m now req w in
  (method req = "OPTIONS" -> result <> None ->
     res_statusCode (response w') = 204
     /\ finished (response w') = true
     /\ sent (response w') = sent (response w)
     /\ nextCalls w' = nextCalls w)
  /\ (method req <> "OPTIONS" ->
      nextCalls w' = (nextCalls w ++ [NextOk])%list
      /\ response w' = response (real st)
      /\ logs w' = logs w).
Proof.
  intros Hrun w'. subst w'. unfold honoAdapter. rewrite Hrun.
  pose proof (run_middleware_frame m req {| real := w; buffered := ∅ |}) as Hf.
  rewrite Hrun in Hf. simpl in Hf. destruct Hf as (Hl & Hn & Hs & Hfin & He).
  split.
  - intros Hm Hr. rewrite Hm, bool_decide_true by done. simpl.
    rewrite call_end_none_response.
    rewrite native_end_statusCode, native_end_finished, native_end_sent_none.
    unfold call_end. rewrite run_end_nextCalls. simpl. auto.
  - intros Hm. apply String.eqb_neq in Hm. rewrite Hm, andb_false_r. simpl.
    by rewrite Hn, Hl.
Qed.

(** C9. When the evaluator throws, the adapter makes one call
    [next(error)] with the value thrown, and nothing else: the response
    is as the evaluator left it, not finished by the adapter and with no
    body written, and nothing is logged. *)
Theorem honoAdapter_forwards_error (m : Evaluator R) now req w error st :
  run_middleware m req {| real := w; buffered := ∅ |} = (Thrown error, st) ->
  let w' := honoAdapter m now req w in
  nextCalls w' = (nextCalls w ++ [NextError error])%list
  /\ response w' = response (real st)
  /\ sent (response w') = sent (response w)
  /\ finished (response w') = finished (response w)
  /\ logs w' = logs w.
Proof.
  intros Hrun w'. subst w'. unfold honoAdapter. rewrite Hrun.
  pose proof (run_middleware_frame m req {| real := w; buffered := ∅ |}) as Hf.
  rewrite Hrun in Hf. simpl in Hf. destruct Hf as (Hl & Hn & Hs & Hfin & He).
  simpl. by rewrite Hn, Hl, Hs, Hfin.
Qed.

Lemma honoAdapter_response_frame (m : Evaluator R) now req w :
  let after := fold_left apply_real
                 (real_calls m req {| real := w; buffered := ∅ |}) w in
  sent (response (honoAdapter m now req w)) = sent (response w)
  /\ res_headers (response (honoAdapter m now req w))
     = res_headers (response after).
Proof.
  intros after. subst after. unfold honoAdapter.
  pose proof (run_middleware_frame m req {| real := w; buffered := ∅ |}) as Hf.
  pose proof (run_middleware_real m req {| real := w; buffered := ∅ |}) as Hr.
  destruct (run_middleware m req {| real := w; buffered := ∅ |}) as [o st].
  simpl in Hf, Hr. destruct Hf as (Hl & Hn & Hs & Hfin & He). rewrite <- Hr.
  destruct o as [result|error]; [|done].
  destruct (bool_decide (result <> None) && String.eqb (method req) "OPTIONS");
    [|done].
  rewrite call_end_none_response, native_end_sent_none, native_end_headers.
  done.
Qed.

End Adapter.

(** C10. Of the shim's surfaces, [c.res.body] changes nothing and
    returns the shim, and [c.res.headers.set] changes only the shim's
    own table. The real response after a run of any middleware is the
    one before it with the calls of [c.res.status] and [c.header]
    applied in order; leaving out the calls of [c.res.body] changes
    neither the outcome nor the state. Under the adapter no body chunk
    is written for any middleware, and the header table of the response
    is the one obtained from the calls of [c.res.status] and [c.header]
    alone. *)
Theorem shim_frame :
  (forall b st, c_res_body b st = (TheContext, st))
  /\ (forall n v st, real (c_res_headers_set n v st) = real st)
  /\ (forall R (m : Evaluator R) req st,
        real (snd (run_middleware m req st))
        = fold_left apply_real (real_calls m req st) (real st))
  /\ (forall R (m : Evaluator R) req st,
        run_middleware (without_body m) req st = run_middleware m req st)
  /\ (forall R (m : Evaluator R) now req w,
        sent (response (honoAdapter m now req w)) = sent (response w)
        /\ res_headers (response (honoAdapter m now req w))
           = res_headers
               (response
                  (fold_left apply_real
                     (real_calls m req {| real := w; buffered := ∅ |}) w))).
Proof.
  split; [done|]. split; [done|].
  split; [intros; apply run_middleware_real|].
  split; [intros; apply run_middleware_without_body|].
  intros. apply honoAdapter_response_frame.
Qed.

Lemma honoAdapter_dispatch_witness :
  (res_statusCode (response (honoAdapter Sample.cors 5 Sample.req_options Sample.fresh))
   = 204
   /\ finished (response (honoAdapter Sample.cors 5 Sample.req_options Sample.fresh))
      = true
   /\ sent (response (honoAdapter Sample.cors 5 Sample.req_options Sample.fresh))
      = sent (response Sample.fresh)
   /\ nextCalls (honoAdapter Sample.cors 5 Sample.req_options Sample.fresh)
      = nextCalls Sample.fresh)
  /\ nextCalls (honoAdapter Sample.cors 5 Sample.req_get Sample.fresh)
     = (nextCalls Sample.fresh ++ [NextOk])%list.
Proof.
  assert (run_middleware Sample.cors Sample.req_options
            {| real := Sample.fresh; buffered := ∅ |}
          = (Returned (Some "204 No Content"),
             snd (run_middleware Sample.cors Sample.req_options
                    {| real := Sample.fresh; buffered := ∅ |})))
    as Hopt by (vm_compute; reflexivity).
  assert (run_middleware Sample.cors Sample.req_get
            {| real := Sample.fresh; buffered := ∅ |}
          = (Returned None,
             snd (run_middleware Sample.cors Sample.req_get
                    {| real := Sample.fresh; buffered := ∅ |})))
    as Hget by (vm_compute; reflexivity).
  split.
  - apply (proj1 (honoAdapter_dispatch Sample.cors 5 Sample.req_options
                    Sample.fresh _ _ Hopt)).
    + reflexivity.
    + discriminate.
  - apply (proj2 (honoAdapter_dispatch Sample.cors 5 Sample.req_get
                    Sample.fresh _ _ Hget)).
    discriminate.
Defined.

Lemma honoAdapter_forwards_error_witness :
  nextCalls (honoAdapter Sample.throwing 5 Sample.req_get Sample.fresh)
  = (nextCalls Sample.fresh ++ [NextError Sample.boom])%list
  /\ finished (response (honoAdapter Sample.throwing 5 Sample.req_get Sample.fresh))
     = finished (response Sample.fresh).
Proof.
  assert (run_middleware Sample.throwing Sample.req_get
            {| real := Sample.fresh; buffered := ∅ |}
          = (Thrown Sample.boom,
             snd (run_middleware Sample.throwing Sample.req_get
                    {| real := Sample.fresh; buffered := ∅ |})))
    as Hrun by (vm_compute; reflexivity).
  pose proof (honoAdapter_forwards_error Sample.throwing 5 Sample.req_get
                Sample.fresh _ _ Hrun) as H.
  cbv zeta in H. destruct H as (Hn & _ & _ & Hf & _).
  split; [exact Hn | exact Hf].
Defined.

(** With every surface of the shim used, the response carries the status
    and the header set through [c.res.status] and [c.header], and neither
    the body nor the buffered header. *)
Example honoAdapter_busy :
  let w := honoAdapter Sample.busy 5 Sample.req_get Sample.fresh in
  res_statusCode (response w) = 403
  /\ map_to_list (res_headers (response w)) = [("vary", HStr "Origin")]
  /\ sent (response w) = []
  /\ nextCalls w = [NextOk].
Proof. vm_compute. repeat split; reflexivity. Qed.

(** The policy headers that the sample evaluator stores in
    [c.res.headers] are not on the response to the preflight. *)
Example honoAdapter_cors_preflight :
  let w := honoAdapter Sample.cors 5 Sample.req_options Sample.fresh in
  res_statusCode (response w) = 204
  /\ res_headers (response w) = ∅
  /\ sent (response w) = []
  /\ nextCalls w = [].
Proof. vm_compute. repeat split; reflexivity. Qed.

(** ** Error handler *)




(** C7. The envelope that [errorHandler] hands to [res.json], the only
    thing it gives to the client, has no [details] when
    [SERVER.IS_PRODUCTION] is set; when it is not set, [details] holds
    the failure's [name] and its [stack] as they are. *)
Theorem errorHandler_details prod iso err req w :
  let body := snd (errorHandler prod iso err req w) in
  (prod = true -> details (error body) = None)
  /\ (prod = false ->
      details (error body)
      = Some {| details_name := name err; details_stack := stack err |}).
Proof.
  intros body. subst body. simpl. split; by intros ->.
Qed.

Lemma errorHandler_details_witness :
  details (error (snd (errorHandler true "2026-01-01T00:00:00.000Z"
                         Sample.boom Sample.req_get Sample.fresh)))
  = None
  /\ details (error (snd (errorHandler false "2026-01-01T00:00:00.000Z"
                            Sample.boom Sample.req_get Sample.fresh)))
     = Some {| details_name := name Sample.boom;
               details_stack := stack Sample.boom |}.
Proof.
  split.
  - exact (proj1 (errorHandler_details true "2026-01-01T00:00:00.000Z"
                    Sample.boom Sample.req_get Sample.fresh) eq_refl).
  - exact (proj2 (errorHandler_details false "2026-01-01T00:00:00.000Z"
                    Sample.boom Sample.req_get Sample.fresh) eq_refl).
Defined.

(** ** The stages in a row *)

(** A request whose policy evaluation throws: the logger, then the
    adapter, then the error handler on the error forwarded, with
    Express sending the envelope. The log holds the request event, the
    error event and one response event, at level [error] for the
    status 500. *)
Example pipeline_failure :
  let w1 := requestLogger 10 "0.4fzyo82mvyr" Sample.req_get Sample.fresh in
  let w2 := honoAdapter Sample.throwing 12 Sample.req_get w1 in
  exists w3,
    errorHandler_sent false false "2026-01-01T00:00:00.000Z" 14 Sample.boom
      Sample.req_get w2 = Some w3
    /\ nextCalls w2 = [NextOk; NextError Sample.boom]
    /\ map level (logs w3) = [Debug; Error; Error]
    /\ map msg (logs w3)
       = ["Request received"; "Request error"; "Response sent: 500 (4ms)"]
    /\ count_terminal (logs w3) = 1%nat
    /\ res_statusCode (response w3) = 500.
Proof.
  eexists. split; [vm_compute; reflexivity|].
  vm_compute. repeat split; reflexivity.
Qed.

(** * Further properties *)

(** ** Header filter *)

(** X1. The filtered record has an entry for exactly the names of
    [req.headers]. *)
Theorem getFilteredHeaders_dom (req : Request) :
  dom (getFilteredHeaders req) = dom (headers req).
Proof.
  apply set_eq. intros k.
  rewrite !elem_of_dom, getFilteredHeaders_lookup, fmap_is_Some. reflexivity.
Qed.

(** X2. The filtered record does not depend on the values of the sensitive
    headers: two requests with the same sensitive names, whatever their
    values, and the same other headers are filtered to the same
    record. *)
Theorem getFilteredHeaders_hides_sensitive (r1 r2 : Request) :
  (forall k, is_sensitive k = true ->
             is_Some (headers r1 !! k) <-> is_Some (headers r2 !! k)) ->
  (forall k, is_sensitive k = false -> headers r1 !! k = headers r2 !! k) ->
  getFilteredHeaders r1 = getFilteredHeaders r2.
Proof.
  intros Hsens Hother. apply map_eq. intros k.
  rewrite !getFilteredHeaders_lookup.
  destruct (is_sensitive k) eqn:Hk.
  - specialize (Hsens k Hk). unfold filterHeader.
    rewrite <- is_sensitive_includes, Hk.
    destruct (headers r1 !! k) as [v1|], (headers r2 !! k) as [v2|]; simpl;
      try done.
    + destruct Hsens as [H _]. destruct H as [x Hx]; [by eexists | done].
    + destruct Hsens as [_ H]. destruct H as [x Hx]; [by eexists | done].
  - by rewrite (Hother k Hk).
Qed.

Lemma sample_headers_agree :
  (forall k, is_sensitive k = true ->
             is_Some (headers Sample.req_get !! k)
             <-> is_Some (headers Fixture.req_get_other !! k))
  /\ (forall k, is_sensitive k = false ->
                headers Sample.req_get !! k = headers Fixture.req_get_other !! k).
Proof.
  assert (headers Fixture.req_get_other
          = <["Authorization" := HStr "Bearer Y"]> (headers Sample.req_get))
    as -> by (vm_compute; reflexivity).
  split; intros k Hk.
  - destruct (decide ("Authorization" = k)) as [<-|Hne].
    + rewrite lookup_insert_eq.
      assert (headers Sample.req_get !! "Authorization" = Some (HStr "Bearer X"))
        as -> by (vm_compute; reflexivity).
      split; eauto.
    + by rewrite lookup_insert_ne.
  - destruct (decide ("Authorization" = k)) as [<-|Hne].
    + vm_compute in Hk. discriminate.
    + by rewrite lookup_insert_ne.
Defined.

Lemma getFilteredHeaders_hides_sensitive_witness :
  getFilteredHeaders Sample.req_get = getFilteredHeaders Fixture.req_get_other.
Proof.
  exact (getFilteredHeaders_hides_sensitive Sample.req_get Fixture.req_get_other
           (proj1 sample_headers_agree) (proj2 sample_headers_agree)).
Defined.

(** ** Request logger *)

Lemma or_string_nonempty (a : option string) (b : string) :
  b <> "" -> or_string a b <> "".
Proof.
  intros Hb. unfold or_string. destruct a as [[|c s]|]; simpl; try done.
Qed.

Lemma requestLogger_logs now random req w :
  logs (requestLogger now random req w)
  = (logs w ++
     [mkLogCall Debug
        (RequestLog
           (if header_truthy (get_header req "x-request-id")
            then get_header req "x-request-id"
            else HStr (JsString.substring 2 random))
           (method req) (url req) (path req) (query req)
           (getFilteredHeaders req)
           (or_string (ip req) (or_string (remoteAddress req) "unknown")))
        "Request received"])%list.
Proof. reflexivity. Qed.

Lemma filterHeader_sensitive (k : string) (v : HeaderValue) :
  is_sensitive k = true -> filterHeader k v = "[REDACTED]".
Proof.
  intros Hk. unfold filterHeader. by rewrite <- is_sensitive_includes, Hk.
Qed.

(** X3. On entry [requestLogger] logs one event, at level [debug], and in
    it every header of the request whose name is sensitive, up to case,
    has the value [[REDACTED]]: no credential of the request is handed
    to the logger. The id in the event is the one put on the response. *)
Theorem requestLogger_request_event now random req w :
  exists rid hs addr,
    logs (requestLogger now random req w)
    = (logs w ++
       [mkLogCall Debug
          (RequestLog rid (method req) (url req) (path req) (query req) hs addr)
          "Request received"])%list
    /\ res_headers (response (requestLogger now random req w)) !! "x-request-id"
       = Some rid
    /\ dom hs = dom (headers req)
    /\ forall k, k ∈ dom (headers req) -> is_sensitive k = true ->
                 hs !! k = Some "[REDACTED]".
Proof.
  eexists _, (getFilteredHeaders req), _.
  split; [apply requestLogger_logs|]. split; [apply requestLogger_header|].
  split.
  - apply set_eq. intros k.
    rewrite !elem_of_dom, getFilteredHeaders_lookup, fmap_is_Some. reflexivity.
  - intros k Hin Hk. apply elem_of_dom in Hin as [v Hv].
    rewrite getFilteredHeaders_lookup, Hv. simpl.
    by rewrite filterHeader_sensitive.
Qed.

Lemma requestLogger_request_event_witness :
  exists rid hs addr,
    logs (requestLogger 10 "0.4fzyo82mvyr" Sample.req_get Sample.fresh)
    = (logs Sample.fresh ++
       [mkLogCall Debug
          (RequestLog rid (method Sample.req_get) (url Sample.req_get)
             (path Sample.req_get) (query Sample.req_get) hs addr)
          "Request received"])%list
    /\ hs !! "Authorization" = Some "[REDACTED]".
Proof.
  destruct (requestLogger_request_event 10 "0.4fzyo82mvyr" Sample.req_get
              Sample.fresh) as (rid & hs & addr & Hlogs & _ & _ & Hred).
  exists rid, hs, addr. split; [exact Hlogs|].
  apply Hred; [vm_compute; reflexivity | vm_compute; reflexivity].
Defined.

(** X4. The address in the request event is [req.ip] when it is a
    non-empty string, otherwise the address of the socket when that is
    a non-empty string, otherwise ["unknown"]; it is never empty. *)
Theorem requestLogger_remote_address now random req w :
  exists rid hs addr,
    logs (requestLogger now random req w)
    = (logs w ++
       [mkLogCall Debug
          (RequestLog rid (method req) (url req) (path req) (query req) hs addr)
          "Request received"])%list
    /\ addr <> ""
    /\ (forall a, ip req = Some a -> a <> "" -> addr = a)
    /\ (forall a, ip req = None \/ ip req = Some "" ->
                  remoteAddress req = Some a -> a <> "" -> addr = a)
    /\ (ip req = None \/ ip req = Some "" ->
        remoteAddress req = None \/ remoteAddress req = Some "" ->
        addr = "unknown").
Proof.
  eexists _, _, _. split; [apply requestLogger_logs|].
  split; [by repeat apply or_string_nonempty|]. repeat split.
  - intros a -> Ha. by destruct a.
  - intros a Hip -> Ha. destruct Hip as [-> | ->]; by destruct a.
  - intros Hip Hra. by destruct Hip as [-> | ->], Hra as [-> | ->].
Qed.

Lemma requestLogger_remote_address_witness :
  exists rid hs addr,
    logs (requestLogger 10 "0.4fzyo82mvyr" Sample.req_get Sample.fresh)
    = (logs Sample.fresh ++
       [mkLogCall Debug
          (RequestLog rid (method Sample.req_get) (url Sample.req_get)
             (path Sample.req_get) (query Sample.req_get) hs addr)
          "Request received"])%list
    /\ addr = "10.0.0.7".
Proof.
  destruct (requestLogger_remote_address 10 "0.4fzyo82mvyr" Sample.req_get
              Sample.fresh) as (rid & hs & addr & Hlogs & _ & _ & Hsock & _).
  exists rid, hs, addr. split; [exact Hlogs|].
  apply Hsock; [by left | reflexivity | discriminate].
Defined.

(** X5. [requestLogger] hands over with exactly one call [next()], and of
    the response it changes the [x-request-id] header and [end] only:
    the status, the body, the finished flag and every other header are
    as before. *)
Theorem requestLogger_frame now random req w :
  let w' := requestLogger now random req w in
  nextCalls w' = (nextCalls w ++ [NextOk])%list
  /\ res_statusCode (response w') = res_statusCode (response w)
  /\ sent (response w') = sent (response w)
  /\ finished (response w') = finished (response w)
  /\ delete "x-request-id" (res_headers (response w'))
     = delete "x-request-id" (res_headers (response w)).
Proof.
  simpl. repeat split. apply delete_insert_eq.
Qed.

(** X6. Each further installation of the logger adds one response event
    per call of [res.end]: with [d] logging closures already around
    [end], a request whose response is ended [n] times yields
    [n * (d + 1)] response events. *)
Theorem requestLogger_nested now random req w (acts : list Action) :
  count_terminal (logs (run_actions acts (requestLogger now random req w)))
  = (count_terminal (logs w)
     + count_ends acts * S (depth (res_end (response w))))%nat.
Proof.
  rewrite run_actions_count, requestLogger_count.
  by destruct (requestLogger_res_end now random req w) as [rid ->].
Qed.

Lemma run_end_logs f now req chunk w :
  exists es,
    logs (run_end f now req chunk w) = (logs w ++ es)%list
    /\ length es = depth f
    /\ Forall (fun e => is_terminal e = true) es.
Proof.
  revert w. induction f as [|startTime requestId f IH]; intros w.
  - exists []. simpl. by rewrite app_nil_r.
  - simpl.
    match goal with
    | |- context [run_end f now req chunk ?w1] =>
        destruct (IH w1) as (es & -> & Hlen & Hall)
    end.
    destruct (500 <=? res_statusCode (response w));
      [|destruct (400 <=? res_statusCode (response w))];
      (eexists (_ :: es); simpl; rewrite <- app_assoc;
       split; [reflexivity|];
       split; [by rewrite Hlen | by constructor]).
Qed.

(** X7. The logging closure is transparent: with any number of closures
    installed, a call of [res.end] does to the response what the native
    [end] does with the same chunk, makes no call of [next], keeps the
    log written so far and adds response events only, one per
    closure. *)
Theorem call_end_transparent now req chunk w :
  response (call_end now req chunk w) = native_end chunk (response w)
  /\ nextCalls (call_end now req chunk w) = nextCalls w
  /\ exists es,
       logs (call_end now req chunk w) = (logs w ++ es)%list
       /\ length es = depth (res_end (response w))
       /\ Forall (fun e => is_terminal e = true) es.
Proof.
  unfold call_end. split; [apply run_end_response|].
  split; [apply run_end_nextCalls | apply run_end_logs].
Qed.

Lemma requestLogger_res_end_id now random req w :
  res_end (response (requestLogger now random req w))
  = LoggingEnd now
      (if header_truthy (get_header req "x-request-id")
       then get_header req "x-request-id"
       else HStr (JsString.substring 2 random))
      (res_end (response w)).
Proof. reflexivity. Qed.

Lemma call_end_logging start rid req now chunk w :
  res_end (response w) = LoggingEnd start rid NativeEnd ->
  logs (call_end now req chunk w)
  = (logs w ++
     [ {| level := if 500 <=? res_statusCode (response w) then Error
                   else if 400 <=? res_statusCode (response w) then Warn
                   else Info;
          payload := ResponseLog rid (method req) (url req) (path req)
                                 (res_statusCode (response w)) (now - start);
          msg := response_message (res_statusCode (response w)) (now - start) |} ])%list.
Proof. intros H. unfold call_end. rewrite H. apply run_end_logging_logs. Qed.

(** X8. The response event of a request carries the id that
    [requestLogger] put on the response as [x-request-id], the method,
    url and path that the request object has when [res.end] is called,
    the status of the response at that moment, and the time elapsed
    since entry. *)
Theorem requestLogger_correlation start random req w (acts : list Action) now
    cur chunk :
  res_end (response w) = NativeEnd ->
  let w1 := requestLogger start random req w in
  let w2 := run_actions acts w1 in
  exists rid lvl m,
    res_headers (response w1) !! "x-request-id" = Some rid
    /\ logs (call_end now cur chunk w2)
       = (logs w2 ++
          [mkLogCall lvl
             (ResponseLog rid (method cur) (url cur) (path cur)
                (res_statusCode (response w2)) (now - start))
             m])%list.
Proof.
  intros Hnative w1 w2. eexists _, _, _.
  split; [apply requestLogger_header|].
  apply call_end_logging. subst w2 w1.
  by rewrite run_actions_res_end, requestLogger_res_end_id, Hnative.
Qed.

Lemma requestLogger_correlation_witness :
  res_end (response Sample.fresh) = NativeEnd /\
  exists rid lvl m,
    res_headers
      (response (requestLogger 10 "0.4fzyo82mvyr" Sample.req_get Sample.fresh))
      !! "x-request-id" = Some rid
    /\ logs (call_end 15 Fixture.req_get_mounted None
               (run_actions [ActStatus 404]
                  (requestLogger 10 "0.4fzyo82mvyr" Sample.req_get Sample.fresh)))
       = (logs (run_actions [ActStatus 404]
                  (requestLogger 10 "0.4fzyo82mvyr" Sample.req_get Sample.fresh))
          ++ [mkLogCall lvl
                (ResponseLog rid (method Fixture.req_get_mounted)
                   (url Fixture.req_get_mounted) (path Fixture.req_get_mounted)
                   (res_statusCode
                      (response
                         (run_actions [ActStatus 404]
                            (requestLogger 10 "0.4fzyo82mvyr" Sample.req_get
                               Sample.fresh))))
                   (15 - 10))
                m])%list.
Proof.
  split; [reflexivity|].
  exact (requestLogger_correlation 10 "0.4fzyo82mvyr" Sample.req_get Sample.fresh
           [ActStatus 404] 15 Fixture.req_get_mounted None eq_refl).
Defined.

(** The sample request ended by a handler mounted under [/proxy]: the
    response event carries the url and path as rewritten, not those of
    the request event. *)
Example requestLogger_mounted_url :
  map payload
    (logs (call_end 15 Fixture.req_get_mounted None
             (requestLogger 10 "0.4fzyo82mvyr" Sample.req_get Sample.fresh)))
  = [RequestLog (HStr "abc123") "GET" "/proxy?u=1" "/proxy" "u=1"
       (getFilteredHeaders Sample.req_get) "10.0.0.7";
     ResponseLog (HStr "abc123") "GET" "/?u=1" "/" 200 5].
Proof. vm_compute. reflexivity. Qed.

(** ** The adapter *)

Section AdapterMore.

Context {R : Type}.

(** X9. For every middleware the adapter does exactly one of two things:
    it finishes the response and makes no call of [next], or it makes
    one call of [next] and leaves the finished flag as the request
    came in. The first happens only for the method [OPTIONS]. *)
Theorem honoAdapter_ends_or_continues (m : Evaluator R) now req w :
  let w' := honoAdapter m now req w in
  (method req = "OPTIONS"
   /\ nextCalls w' = nextCalls w
   /\ finished (response w') = true
   /\ res_statusCode (response w') = 204)
  \/ (exists c,
        nextCalls w' = (nextCalls w ++ [c])%list
        /\ finished (response w') = finished (response w)
        /\ sent (response w') = sent (response w)).
Proof.
  intros w'. subst w'. unfold honoAdapter.
  pose proof (run_middleware_frame m req {| real := w; buffered := ∅ |}) as Hf.
  destruct (run_middleware m req {| real := w; buffered := ∅ |}) as [o st].
  simpl in Hf. destruct Hf as (Hl & Hn & Hs & Hfin & He).
  destruct o as [result|error].
  - destruct (bool_decide (result <> None) && String.eqb (method req) "OPTIONS")
      eqn:E.
    + left. apply andb_prop in E as [_ Hm]. apply String.eqb_eq in Hm.
      split; [done|]. rewrite call_end_none_response.
      rewrite native_end_statusCode, native_end_finished.
      unfold call_end. rewrite run_end_nextCalls. simpl. auto.
    + right. exists NextOk. simpl. by rewrite Hn, Hfin, Hs.
  - right. exists (NextError error). simpl. by rewrite Hn, Hfin, Hs.
Qed.

(** X10. A preflight that the middleware does not answer goes on down the
    chain: for the method [OPTIONS] and a result [undefined], the
    adapter makes the call [next()] and leaves the response and the log
    as the middleware left them. *)
Theorem honoAdapter_unanswered_preflight (m : Evaluator R) now req w st :
  method req = "OPTIONS" ->
  run_middleware m req {| real := w; buffered := ∅ |} = (Returned None, st) ->
  let w' := honoAdapter m now req w in
  nextCalls w' = (nextCalls w ++ [NextOk])%list
  /\ response w' = response (real st)
  /\ finished (response w') = finished (response w)
  /\ logs w' = logs w.
Proof.
  intros Hm Hrun w'. subst w'. unfold honoAdapter. rewrite Hrun.
  pose proof (run_middleware_frame m req {| real := w; buffered := ∅ |}) as Hf.
  rewrite Hrun in Hf. simpl in Hf. destruct Hf as (Hl & Hn & Hs & Hfin & He).
  rewrite bool_decide_false by (intros H; by apply H).
  simpl. by rewrite Hn, Hl, Hfin.
Qed.

(** X11. With the logger installed before the adapter, a preflight that the
    middleware answers is logged as one response event, at level [info]
    and with status 204, whatever status the middleware set through the
    shim. *)
Theorem honoAdapter_preflight_logged (m : Evaluator R) start random now req w r st :
  res_end (response w) = NativeEnd ->
  method req = "OPTIONS" ->
  let w1 := requestLogger start random req w in
  run_middleware m req {| real := w1; buffered := ∅ |} = (Returned (Some r), st) ->
  exists rid,
    logs (honoAdapter m now req w1)
    = (logs w1 ++
       [mkLogCall Info
          (ResponseLog rid "OPTIONS" (url req) (path req) 204 (now - start))
          ("Response sent: 204 (" ++ pretty (now - start) ++ "ms)")])%list.
Proof.
  intros Hnative Hm w1 Hrun. unfold honoAdapter. rewrite Hrun, Hm.
  rewrite bool_decide_true by done. cbn [andb String.eqb Ascii.eqb Bool.eqb].
  pose proof (run_middleware_frame m req {| real := w1; buffered := ∅ |}) as Hf.
  rewrite Hrun in Hf. cbv zeta in Hf. cbn [snd real] in Hf.
  destruct Hf as (Hl & Hn & Hs & Hfin & He).
  eexists. erewrite (call_end_logging start _ req).
  - cbn [with_response response logs res_status res_statusCode].
    rewrite Hl, Hm. reflexivity.
  - cbn [with_response response res_status res_end]. rewrite He. subst w1.
    by rewrite requestLogger_res_end_id, Hnative.
Qed.

End AdapterMore.



Lemma honoAdapter_unanswered_preflight_witness :
  nextCalls (honoAdapter Sample.busy 5 Sample.req_options Sample.fresh)
  = (nextCalls Sample.fresh ++ [NextOk])%list
  /\ finished (response (honoAdapter Sample.busy 5 Sample.req_options Sample.fresh))
     = finished (response Sample.fresh).
Proof.
  assert (run_middleware Sample.busy Sample.req_options
            {| real := Sample.fresh; buffered := ∅ |}
          = (Returned None,
             snd (run_middleware Sample.busy Sample.req_options
                    {| real := Sample.fresh; buffered := ∅ |})))
    as Hrun by (vm_compute; reflexivity).
  pose proof (honoAdapter_unanswered_preflight Sample.busy 5 Sample.req_options
                Sample.fresh _ eq_refl Hrun) as H.
  cbv zeta in H. destruct H as (Hn & _ & Hf & _).
  split; [exact Hn | exact Hf].
Defined.

Lemma honoAdapter_preflight_logged_witness :
  exists rid,
    logs (honoAdapter Sample.cors 15 Sample.req_options
            (requestLogger 10 "0.4fzyo82mvyr" Sample.req_options Sample.fresh))
    = (logs (requestLogger 10 "0.4fzyo82mvyr" Sample.req_options Sample.fresh) ++
       [mkLogCall Info
          (ResponseLog rid "OPTIONS" (url Sample.req_options)
             (path Sample.req_options) 204 (15 - 10))
          ("Response sent: 204 (" ++ pretty (15 - 10) ++ "ms)")])%list.
Proof.
  assert (run_middleware Sample.cors Sample.req_options
            {| real := requestLogger 10 "0.4fzyo82mvyr" Sample.req_options
                         Sample.fresh;
               buffered := ∅ |}
          = (Returned (Some "204 No Content"),
             snd (run_middleware Sample.cors Sample.req_options
                    {| real := requestLogger 10 "0.4fzyo82mvyr" Sample.req_options
                                 Sample.fresh;
                       buffered := ∅ |})))
    as Hrun by (vm_compute; reflexivity).
  exact (honoAdapter_preflight_logged Sample.cors 10 "0.4fzyo82mvyr" 15
           Sample.req_options Sample.fresh _ _ eq_refl eq_refl Hrun).
Defined.

(** ** Error handler *)

Lemma or_number_nonzero (a : option Z) (b : Z) : b <> 0 -> or_number a b <> 0.
Proof.
  intros Hb. unfold or_number. destruct a as [n|]; [|done].
  destruct (Z.eqb_spec n 0); done.
Qed.

(** X13. Whatever the failure holds, the status that [errorHandler] sets
    on the response is not zero, and the envelope that it hands to
    [res.json] carries that status as its code and a message that is
    not empty. *)
Theorem errorHandler_never_falsy prod iso err req w :
  let w' := fst (errorHandler prod iso err req w) in
  let body := snd (errorHandler prod iso err req w) in
  res_statusCode (response w') = code (error body)
  /\ code (error body) <> 0
  /\ error_message (error body) <> "".
Proof.
  intros w' body. subst w' body. simpl. split; [done|]. split.
  - by repeat apply or_number_nonzero.
  - by apply or_string_nonempty.
Qed.

(** Where Express's [res.json] takes its plain course, it is one call
    of [res.end] with the envelope. *)
Lemma res_json_plain now req b w :
  finished (response w) = false ->
  method req <> "HEAD" ->
  400 <= res_statusCode (response w) <= 599 ->
  res_json false now req b w = Some (call_end now req (Some (ChunkJson b)) w).
Proof.
  intros Hfin Hm [Hlo Hhi]. unfold res_json.
  apply String.eqb_neq in Hm. apply Z.leb_le in Hlo, Hhi.
  by rewrite Hfin, Hm, Hlo, Hhi.
Qed.

Lemma count_terminal_error l e st p m u msg0 :
  count_terminal [mkLogCall l (ErrorLog e st p m u) msg0] = 0%nat.
Proof. reflexivity. Qed.

(** X14. With the logger installed, on a response of which nothing has
    gone out, for a request that is not a [HEAD] and a resolved status
    from 400 to 599, [errorHandler] and the [res.json] it calls add two
    events to the log and make no call of [next]: first the error
    event, at level [error], holding the failure itself and its stack
    when it is an [Error] and its string form and no stack otherwise;
    then the response event, with the method, url and path of the
    request as the handler has it, the resolved status, and the level
    [error] from 500 on and [warn] below. The envelope is the body
    written and the response is finished. *)
Theorem errorHandler_logged start random prod iso now err req0 req w
    (acts : list Action) :
  res_end (response w) = NativeEnd ->
  let w1 := run_actions acts (requestLogger start random req0 w) in
  let resolved := or_number (status err) (or_number (statusCode err) 500) in
  finished (response w1) = false ->
  method req <> "HEAD" ->
  400 <= resolved <= 599 ->
  exists w2 rid,
    errorHandler_sent false prod iso now err req w1 = Some w2
    /\ logs w2
       = (logs w1 ++
          [mkLogCall Error
             (ErrorLog (if isError err then inl err else inr (repr err))
                       (if isError err then stack err else None)
                       (path req) (method req) (url req))
             "Request error";
           mkLogCall (if 500 <=? resolved then Error else Warn)
             (ResponseLog rid (method req) (url req) (path req) resolved
                          (now - start))
             (response_message resolved (now - start))])%list
    /\ res_statusCode (response w2) = resolved
    /\ sent (response w2)
       = (sent (response w1)
          ++ [ChunkJson (snd (errorHandler prod iso err req w1))])%list
    /\ finished (response w2) = true
    /\ nextCalls w2 = nextCalls w1.
Proof.
  intros Hnative w1 resolved Hfin Hm Hst.
  unfold errorHandler_sent, errorHandler. fold resolved.
  rewrite res_json_plain; [|exact Hfin|exact Hm|exact Hst].
  eexists _, _. split; [reflexivity|]. split; [|split; [|split; [|split]]].
  - erewrite (call_end_logging start _ req).
    + cbn [with_response response logs res_status res_statusCode emit].
      rewrite <- app_assoc. simpl.
      assert ((400 <=? resolved) = true) as -> by (apply Z.leb_le; lia).
      reflexivity.
    + cbn [with_response response res_status res_end emit]. subst w1.
      by rewrite run_actions_res_end, requestLogger_res_end_id, Hnative.
  - unfold call_end. by rewrite run_end_response, native_end_statusCode.
  - unfold call_end. rewrite run_end_response.
    rewrite native_end_sent_first; [reflexivity | exact Hfin].
  - unfold call_end. rewrite run_end_response. apply native_end_finished.
  - unfold call_end. by rewrite run_end_nextCalls.
Qed.

Lemma errorHandler_logged_witness :
  exists w2,
    errorHandler_sent false false "2026-01-01T00:00:00.000Z" 14
      Fixture.thrown_string Fixture.req_get_mounted
      (run_actions [ActSetHeader "vary" (HStr "Origin")]
         (requestLogger 10 "0.4fzyo82mvyr" Sample.req_get Sample.fresh))
    = Some w2
    /\ res_statusCode (response w2) = 500
    /\ finished (response w2) = true.
Proof.
  destruct (errorHandler_logged 10 "0.4fzyo82mvyr" false
              "2026-01-01T00:00:00.000Z" 14 Fixture.thrown_string Sample.req_get
              Fixture.req_get_mounted Sample.fresh
              [ActSetHeader "vary" (HStr "Origin")] eq_refl)
    as (w2 & rid & Hrun & _ & Hst & _ & Hfin & _).
  - reflexivity.
  - discriminate.
  - vm_compute. split; discriminate.
  - exists w2. split; [exact Hrun|]. split; [exact Hst | exact Hfin].
Defined.

(** X15. A request whose policy evaluation throws, taken through the
    logger, the adapter and the error handler, on a response of which
    nothing has gone out, for a request that is not a [HEAD] and a
    failure whose resolved status is from 400 to 599, yields exactly
    one response event and a finished response: the adapter forwards
    the failure without logging or ending the response, and the error
    handler, which makes no call of [next], has it ended once. *)
Theorem failure_path_one_terminal {R} (m : Evaluator R) start random t1 t2 prod
    iso req w error st :
  res_end (response w) = NativeEnd ->
  finished (response w) = false ->
  method req <> "HEAD" ->
  400 <= or_number (status error) (or_number (statusCode error) 500) <= 599 ->
  let w1 := requestLogger start random req w in
  let w2 := honoAdapter m t1 req w1 in
  run_middleware m req {| real := w1; buffered := ∅ |} = (Thrown error, st) ->
  exists w3,
    errorHandler_sent false prod iso t2 error req w2 = Some w3
    /\ nextCalls w2 = (nextCalls w ++ [NextOk; NextError error])%list
    /\ nextCalls w3 = nextCalls w2
    /\ count_terminal (logs w2) = count_terminal (logs w)
    /\ count_terminal (logs w3) = S (count_terminal (logs w))
    /\ finished (response w3) = true.
Proof.
  intros Hnative Hfin0 Hm Hst w1 w2 Hrun.
  pose proof (run_middleware_frame m req {| real := w1; buffered := ∅ |}) as Hf.
  rewrite Hrun in Hf. cbv zeta in Hf. cbn [snd real] in Hf.
  destruct Hf as (Hl & Hn & Hs & Hfin & He).
  assert (w2 = next (NextError error) (real st)) as Hw2.
  { subst w2. unfold honoAdapter. by rewrite Hrun. }
  assert (logs w2 = logs w1) as Hlogs by (by rewrite Hw2).
  assert (res_end (response w2) = LoggingEnd start
            (if header_truthy (get_header req "x-request-id")
             then get_header req "x-request-id"
             else HStr (JsString.substring 2 random)) NativeEnd) as Hend.
  { rewrite Hw2. cbn [next response]. rewrite He. subst w1.
    by rewrite requestLogger_res_end_id, Hnative. }
  assert (finished (response w2) = false) as Hfin2.
  { rewrite Hw2. cbn [next response]. rewrite Hfin. subst w1. exact Hfin0. }
  unfold errorHandler_sent, errorHandler.
  rewrite res_json_plain; [|exact Hfin2|exact Hm|exact Hst].
  eexists. split; [reflexivity|]. split; [|split; [|split; [|split]]].
  - rewrite Hw2. cbn [next nextCalls]. rewrite Hn. subst w1.
    unfold requestLogger. cbn [next nextCalls with_response emit].
    by rewrite <- app_assoc.
  - unfold call_end. by rewrite run_end_nextCalls.
  - rewrite Hlogs. subst w1. apply requestLogger_count.
  - unfold call_end. rewrite run_end_count.
    cbn [with_response response res_status res_end emit logs].
    rewrite Hend, count_terminal_app, count_terminal_error, Hlogs.
    subst w1. rewrite requestLogger_count. simpl. lia.
  - unfold call_end. rewrite run_end_response. apply native_end_finished.
Qed.

Lemma failure_path_one_terminal_witness :
  exists w3,
    errorHandler_sent false false "2026-01-01T00:00:00.000Z" 14 Sample.boom
      Sample.req_get
      (honoAdapter Sample.throwing 12 Sample.req_get
         (requestLogger 10 "0.4fzyo82mvyr" Sample.req_get Sample.fresh))
    = Some w3
    /\ count_terminal (logs w3) = S (count_terminal (logs Sample.fresh))
    /\ finished (response w3) = true.
Proof.
  assert (run_middleware Sample.throwing Sample.req_get
            {| real := requestLogger 10 "0.4fzyo82mvyr" Sample.req_get Sample.fresh;
               buffered := ∅ |}
          = (Thrown Sample.boom,
             snd (run_middleware Sample.throwing Sample.req_get
                    {| real := requestLogger 10 "0.4fzyo82mvyr" Sample.req_get
                                 Sample.fresh;
                       buffered := ∅ |})))
    as Hrun by (vm_compute; reflexivity).
  assert (400 <= or_number (status Sample.boom)
                   (or_number (statusCode Sample.boom) 500) <= 599) as Hst
    by (vm_compute; split; discriminate).
  assert (method Sample.req_get <> "HEAD") as Hm by discriminate.
  pose proof (failure_path_one_terminal Sample.throwing 10 "0.4fzyo82mvyr" 12 14
                false "2026-01-01T00:00:00.000Z" Sample.req_get Sample.fresh
                Sample.boom _ eq_refl eq_refl Hm Hst Hrun) as H.
  cbv zeta in H. destruct H as (w3 & Hsent & _ & _ & _ & Hc & Hf).
  exists w3. split; [exact Hsent|]. split; [exact Hc | exact Hf].
Defined.

(** ** The logger's options and the entry point *)



(** ** The entry point *)

Section ServerRuns.

Import Server.

Variable NODE_ENV : string.
Variable cloudflare : bool.

Lemma step_exited p e c : exited p = Some c -> step NODE_ENV cloudflare p e = None.
Proof. intros H. unfold step. by rewrite H. Qed.

Lemma run_exited p l c q :
  exited p = Some c -> run NODE_ENV cloudflare p l = Some q -> l = [] /\ q = p.
Proof.
  intros H. destruct l as [|e r]; simpl.
  - intros [= <-]. done.
  - by rewrite (step_exited p e c H).
Qed.

Lemma run_app p l k :
  run NODE_ENV cloudflare p (l ++ k)
  = match run NODE_ENV cloudflare p l with
    | Some q => run NODE_ENV cloudflare q k
    | None => None
    end.
Proof.
  revert p. induction l as [|e r IH]; intros p; simpl; [done|].
  destruct (step NODE_ENV cloudflare p e); [apply IH | done].
Qed.

(** While the process runs, callbacks wait for the server to close and
    timers are armed only if a signal has been handled. *)
Lemma run_exit_after_signal (l : list Event) :
  forall p q c (seen : bool),
    exited p = None ->
    (closing p = O /\ timers p = O) \/ seen = true ->
    run NODE_ENV cloudflare p l = Some q ->
    exited q = Some c ->
    exists pre last,
      l = (pre ++ [last])%list
      /\ seen || existsb is_signal pre = true
      /\ ((last = Closed /\ c = 0) \/ (last = TimedOut /\ c = 1)).
Proof.
  induction l as [|e r IH]; intros p q c seen Hp Hinv Hrun Hq; simpl in Hrun.
  - injection Hrun as <-. congruence.
  - destruct (step NODE_ENV cloudflare p e) as [p1|] eqn:Hstep; [|done].
    unfold step in Hstep. rewrite Hp in Hstep. destruct e.
    + destruct (listenPending p) as [port|]; [|done]. injection Hstep as <-.
      destruct (IH (on_listening NODE_ENV cloudflare port p) q c seen Hp Hinv
                  Hrun Hq) as (pre & last & -> & Hs & Hl).
      exists (Listening :: pre), last. simpl. auto.
    + case_bool_decide; [|done]. injection Hstep as <-.
      destruct (IH (on_signal s p) q c true Hp (or_intror eq_refl) Hrun Hq)
        as (pre & last & -> & Hs & Hl).
      exists (Signalled s :: pre), last. simpl. rewrite orb_true_r. auto.
    + destruct (closing p) eqn:Hc; [done|]. injection Hstep as <-.
      destruct (run_exited (on_closed p) r 0 q eq_refl Hrun) as [-> ->].
      exists [], Closed. simpl in Hq. injection Hq as <-.
      destruct Hinv as [[H0 _]| ->]; [congruence|]. auto.
    + destruct (timers p) eqn:Hc; [done|]. injection Hstep as <-.
      destruct (run_exited (on_timeout p) r 1 q eq_refl Hrun) as [-> ->].
      exists [], TimedOut. simpl in Hq. injection Hq as <-.
      destruct Hinv as [[_ H0]| ->]; [congruence|]. auto.
Qed.

(** While the process runs after a handled signal, a callback waits for
    the server to close and a timer is armed. *)
Lemma run_armed_after_signal (l : list Event) :
  forall p q,
    exited p = None ->
    run NODE_ENV cloudflare p l = Some q ->
    exited q = None ->
    existsb is_signal l = true \/ (closing p <> O /\ timers p <> O) ->
    closing q <> O /\ timers q <> O.
Proof.
  induction l as [|e r IH]; intros p q Hp Hrun Hq Hs; simpl in Hrun.
  - injection Hrun as <-. destruct Hs as [Hs|Hs]; [done | exact Hs].
  - destruct (step NODE_ENV cloudflare p e) as [p1|] eqn:Hstep; [|done].
    unfold step in Hstep. rewrite Hp in Hstep. destruct e.
    + destruct (listenPending p) as [port|]; [|done]. injection Hstep as <-.
      apply (IH (on_listening NODE_ENV cloudflare port p) q Hp Hrun Hq).
      simpl in Hs. exact Hs.
    + case_bool_decide; [|done]. injection Hstep as <-.
      apply (IH (on_signal s p) q Hp Hrun Hq). right. simpl. done.
    + destruct (closing p); [done|]. injection Hstep as <-.
      destruct (run_exited (on_closed p) r 0 q eq_refl Hrun) as [_ ->].
      done.
    + destruct (timers p); [done|]. injection Hstep as <-.
      destruct (run_exited (on_timeout p) r 1 q eq_refl Hrun) as [_ ->].
      done.
Qed.

Lemma main_running env_NODE_ENV env_PORT :
  exited (main env_NODE_ENV env_PORT) = None
  /\ closing (main env_NODE_ENV env_PORT) = O
  /\ timers (main env_NODE_ENV env_PORT) = O.
Proof. unfold main. by case_match. Qed.

(** X17. With [NODE_ENV] set to [production] the entry point starts
    nothing: no server is asked to listen, no handler is installed,
    nothing is logged, and no callback of its own can ever run. *)
Theorem main_production (env_PORT : option string) (l : list Event) (q : Process) :
  run NODE_ENV cloudflare (main (Some "production") env_PORT) l = Some q ->
  l = []
  /\ out q = [] /\ listenPending q = None /\ handlers q = []
  /\ exited q = None.
Proof.
  destruct l as [|e r]; simpl.
  - intros [= <-]. done.
  - by destruct e.
Qed.

(** X18. The entry point calls [process.exit] only from the callback given
    to [server.close], with code 0, or from the timer, with code 1, and
    in both cases only after a signal has been handled; once it has,
    no further callback runs. *)
Theorem exit_only_after_signal (env_NODE_ENV env_PORT : option string)
    (l : list Event) (q : Process) (c : Z) :
  run NODE_ENV cloudflare (main env_NODE_ENV env_PORT) l = Some q ->
  exited q = Some c ->
  exists pre last,
    l = (pre ++ [last])%list
    /\ existsb is_signal pre = true
    /\ ((last = Closed /\ c = 0) \/ (last = TimedOut /\ c = 1))
    /\ forall e, step NODE_ENV cloudflare q e = None.
Proof.
  intros Hrun Hq.
  destruct (run_exit_after_signal l (main env_NODE_ENV env_PORT) q c false)
    as (pre & last & -> & Hs & Hl); try done.
  - apply main_running.
  - left. split; apply main_running.
  - exists pre, last. repeat split; try done.
    intros e. by apply (step_exited q e c).
Qed.


(** X20. While the process runs after a handled signal, it ends in one of
    two ways. If the server closes first, the process logs that at
    level [info] and exits with code 0; if the timer fires first, it
    logs that at level [error] and exits with code 1. Further signals
    before that only add their own log lines. *)
Theorem shutdown_outcomes (env_NODE_ENV env_PORT : option string)
    (pre : list Event) (p : Process) :
  run NODE_ENV cloudflare (main env_NODE_ENV env_PORT) pre = Some p ->
  exited p = None ->
  existsb is_signal pre = true ->
  (exists q,
     run NODE_ENV cloudflare (main env_NODE_ENV env_PORT) (pre ++ [Closed])
     = Some q
     /\ exited q = Some 0
     /\ out q = (out p ++ [mkServerLog Info Bare "Server closed cleanly."])%list)
  /\ (exists q,
        run NODE_ENV cloudflare (main env_NODE_ENV env_PORT) (pre ++ [TimedOut])
        = Some q
        /\ exited q = Some 1
        /\ out q
           = (out p ++
              [mkServerLog Error Bare
                 "Server did not close gracefully. Forcing exit."])%list).
Proof.
  intros Hrun He Hsig.
  destruct (run_armed_after_signal pre (main env_NODE_ENV env_PORT) p
              (proj1 (main_running env_NODE_ENV env_PORT)) Hrun He
              (or_introl Hsig)) as [Hc Ht].
  split.
  - exists (on_closed p). rewrite run_app, Hrun. simpl. unfold step.
    rewrite He. destruct (closing p); done.
  - exists (on_timeout p). rewrite run_app, Hrun. simpl. unfold step.
    rewrite He. destruct (timers p); done.
Qed.

End ServerRuns.

Lemma main_production_witness :
  Server.out (Server.main (Some "production") (Some "8080")) = []
  /\ Server.handlers (Server.main (Some "production") (Some "8080")) = [].
Proof.
  destruct (main_production "production" false (Some "8080") [] _ eq_refl)
    as (_ & Ho & _ & Hh & _).
  split; [exact Ho | exact Hh].
Defined.

Lemma exit_only_after_signal_witness :
  exists pre last,
    [Server.Listening; Server.Signalled Server.SIGINT; Server.TimedOut]
    = (pre ++ [last])%list
    /\ existsb Server.is_signal pre = true
    /\ ((last = Server.Closed /\ 1 = 0) \/ (last = Server.TimedOut /\ 1 = 1)).
Proof.
  destruct (exit_only_after_signal "development" false None None
              [Server.Listening; Server.Signalled Server.SIGINT; Server.TimedOut]
              (Server.on_timeout
                 (Server.on_signal Server.SIGINT
                    (Server.on_listening "development" false (Server.PORT None)
                       (Server.main None None))))
              1 eq_refl eq_refl) as (pre & last & Hl & Hs & Hc & _).
  exists pre, last. split; [exact Hl|]. split; [exact Hs | exact Hc].
Defined.


Lemma shutdown_outcomes_witness :
  exists p q,
    Server.run "development" false (Server.main None None)
      [Server.Listening; Server.Signalled Server.SIGTERM]
    = Some p
    /\ Server.run "development" false (Server.main None None)
         ([Server.Listening; Server.Signalled Server.SIGTERM] ++ [Server.Closed])
       = Some q
    /\ Server.exited q = Some 0.
Proof.
  eexists.
  assert (Server.run "development" false (Server.main None None)
            [Server.Listening; Server.Signalled Server.SIGTERM]
          = Some (Server.on_signal Server.SIGTERM
                    (Server.on_listening "development" false (Server.PORT None)
                       (Server.main None None))))
    as Hrun by reflexivity.
  destruct (shutdown_outcomes "development" false None None
              [Server.Listening; Server.Signalled Server.SIGTERM] _ Hrun
              eq_refl eq_refl) as [(q & Hq & Hex & _) _].
  exists q. split; [exact Hrun|]. split; [exact Hq | exact Hex].
Defined.
